(** * FinanceFlow dashboard: the data provider and the derived view model

    A shallow embedding of the logic of [src/App.jsx]:
    - [SharePointService.getMockData] and [SharePointService.getListItems],
      the mock data provider;
    - [calculateChange] of [MetricCards], the percentage change of a metric;
    - [sortedTransactions] of [TransactionTable], the sorted view.

    JavaScript numbers are IEEE 754 binary64 values; they are modelled by
    [spec_float] with the operations of [SpecFloat] at precision 53 and
    maximal exponent 1024.  Property keys and string values are [string]s
    (code units below 256).  Arrays are objects with identity: where a claim
    is about aliasing they live in a heap, a [gmap] from locations to lists. *)

From Stdlib Require Import ZArith QArith Qabs Qround Lqa String Ascii List Lia.
From Stdlib Require Import Permutation Sorted.
From Stdlib Require Import SpecFloat DecimalString DecimalN.
From stdpp Require Import gmap strings.
Import ListNotations.

Local Open Scope string_scope.
Local Open Scope Z_scope.

(** ** JavaScript numbers *)

Module Number.

Definition prec : Z := 53.
Definition emax : Z := 1024.

Definition number : Type := spec_float.

(** A numeric literal without fraction, e.g. [125000]: the binary64 value
    nearest to the integer. *)
Definition of_Z (z : Z) : number := binary_normalize prec emax z 0 false.

Definition sub : number -> number -> number := SFsub prec emax.
Definition mul : number -> number -> number := SFmul prec emax.
Definition div : number -> number -> number := SFdiv prec emax.

(** A decimal literal [digits / 10^frac], e.g. [18.5] is [decimal 185 1]:
    numerator and denominator are exact, so the correctly rounded quotient
    is the binary64 value nearest to the literal. *)
Definition decimal (digits : Z) (frac : Z) : number :=
  div (of_Z digits) (of_Z (10 ^ frac)).

(** [x < y] and [x === y] on numbers: false as soon as one side is NaN,
    and [+0 === -0]. *)
Definition lt : number -> number -> bool := SFltb.
Definition strict_eq : number -> number -> bool := SFeqb.

Definition is_finite (x : number) : bool :=
  match x with
  | S754_zero _ | S754_finite _ _ _ => true
  | S754_infinity _ | S754_nan => false
  end.

(** A finite binary64 number, as the decimal fields of the data model
    are: neither NaN nor an infinity, and in the format. *)
Definition is_decimal (x : number) : bool :=
  is_finite x && valid_binary prec emax x.

(** Structural equality of two representations. *)
Definition same (x y : number) : bool :=
  match x, y with
  | S754_zero a, S754_zero b => Bool.eqb a b
  | S754_infinity a, S754_infinity b => Bool.eqb a b
  | S754_nan, S754_nan => true
  | S754_finite a m e, S754_finite b m' e' =>
      Bool.eqb a b && Pos.eqb m m' && Z.eqb e e'
  | _, _ => false
  end.

(** The mathematical value of a finite number, [0] for both zeros. *)
Definition value (x : number) : Q :=
  match x with
  | S754_finite s m e =>
      (if s then - inject_Z (Zpos m) else inject_Z (Zpos m)) * 2 ^ e
  | _ => 0
  end%Q.

(** *** Decimal digits *)

(** The digits of a natural number, without leading zeroes; ["0"] for 0. *)
Definition digits (n : Z) : string :=
  NilEmpty.string_of_uint (N.to_uint (Z.to_N n)).

Fixpoint zeroes (k : nat) : string :=
  match k with
  | O => ""
  | S k' => String "0" (zeroes k')
  end.

(** *** Number::toString for the values [toFixed] hands over to it *)

(** Candidates [(s, n)] with [k] digits: [10^(k-1) <= s < 10^k] and the
    number nearest to [s * 10^(n-k)] is [x].  [X] is the integer value of
    [x] and [n0] its number of digits. *)
Definition candidates (x : number) (X n0 k : Z) : list (Z * Z) :=
  flat_map
    (fun n =>
       let scale := 10 ^ (n - k) in
       let s0 := X / scale in
       filter
         (fun sn =>
            (10 ^ (k - 1) <=? fst sn) && (fst sn <? 10 ^ k)
            && same (of_Z (fst sn * scale)) x)
         [(s0, n); (s0 + 1, n)])
    [n0; n0 + 1].

(** Among the candidates the one nearest to [X]; an even [s] on a tie. *)
Definition nearer (X k : Z) (c1 c2 : Z * Z) : Z * Z :=
  let d1 := Z.abs (fst c1 * 10 ^ (snd c1 - k) - X) in
  let d2 := Z.abs (fst c2 * 10 ^ (snd c2 - k) - X) in
  if d1 <? d2 then c1
  else if d2 <? d1 then c2
  else if Z.even (fst c1) then c1 else c2.

Definition nearest (X k : Z) (cs : list (Z * Z)) : option (Z * Z) :=
  match cs with
  | [] => None
  | c :: cs' => Some (fold_left (nearer X k) cs' c)
  end.

(** The shortest digit string that reads back as [x]: the first [k] that
    has a candidate.  Seventeen digits always identify a binary64 number. *)
Fixpoint shortest (x : number) (X n0 : Z) (ks : list Z) : option (Z * Z * Z) :=
  match ks with
  | [] => None
  | k :: ks' =>
      match nearest X k (candidates x X n0 k) with
      | Some (s, n) => Some (s, n, k)
      | None => shortest x X n0 ks'
      end
  end.

(** Number::toString(x, 10) for an integral [x >= 10^21]; here [n > 21],
    so the result is in exponential notation. *)
Definition toString_large (x : number) : string :=
  let X := Qfloor (value x) in
  let n0 := Z.of_nat (String.length (digits X)) in
  match shortest x X n0 (map Z.of_nat (seq 1 17)) with
  | Some (s, n, k) =>
      let ds := digits s in
      let e := digits (n - 1) in
      match ds with
      | String d "" => String d ("e+" +:+ e)
      | String d rest => String d ("." +:+ rest +:+ "e+" +:+ e)
      | "" => ""
      end
  | None => ""
  end.

(** Number::toString(x, 10) for the values that are not finite. *)
Definition toString_special (x : number) : string :=
  match x with
  | S754_nan => "NaN"
  | S754_infinity false => "Infinity"
  | S754_infinity true => "-Infinity"
  | _ => ""
  end.

(** *** Number.prototype.toFixed *)

Inductive completion (A : Type) : Type :=
| Normal (v : A)
| Throw (error : string).
Arguments Normal {A} v.
Arguments Throw {A} error.

(** The integer [n] for which [n / 10^f - r] is as close to zero as
    possible, the larger one if there are two. *)
Definition nearest_scaled (r : Q) (f : Z) : Z :=
  Qfloor (r * inject_Z (10 ^ f) + (1 # 2)).

(** Steps 11.b and 11.c: the digits of [n] with a point before the last
    [f] of them, padded with zeroes up to [f + 1] digits. *)
Definition fixed_digits (n : Z) (f : nat) : string :=
  let m := digits n in
  match f with
  | O => m
  | _ =>
      let k := String.length m in
      let m := if (k <=? f)%nat then zeroes (f + 1 - k) +:+ m else m in
      let k := String.length m in
      substring 0 (k - f) m +:+ "." +:+ substring (k - f) f m
  end.

Definition toFixed (x : number) (fractionDigits : Z) : completion string :=
  if (fractionDigits <? 0) || (100 <? fractionDigits) then Throw "RangeError"
  else if negb (is_finite x) then Normal (toString_special x)
  else
    let r := value x in
    let s := if Qle_bool 0 r then "" else "-" in
    let r := Qabs r in
    if Qle_bool (inject_Z (10 ^ 21)) r
    then Normal (s +:+ toString_large (SFabs x))
    else Normal (s +:+ fixed_digits (nearest_scaled r fractionDigits)
                                    (Z.to_nat fractionDigits)).

End Number.

Export Number (number, completion, Normal, Throw).

(** ** Percentage change of a metric *)

(** [const calculateChange = (current, previous) =>
      ((current - previous) / previous * 100).toFixed(1)] *)
Definition percentChange (current previous : number) : number :=
  Number.mul (Number.div (Number.sub current previous) previous) (Number.of_Z 100).

Definition calculateChange (current previous : number) : completion string :=
  Number.toFixed (percentChange current previous) 1.

(** ** The records of the three SharePoint lists *)

Module Transaction.
Record t : Type := Build {
  Id : number;
  Title : string;
  Amount : number;
  Category : string;
  Date : string;
  Status : string
}.
End Transaction.

Module BudgetCategory.
Record t : Type := Build {
  Id : number;
  Title : string;
  Allocated : number;
  Spent : number
}.
End BudgetCategory.

Module Metric.
Record t : Type := Build {
  Id : number;
  Title : string;
  Value : number;
  PreviousValue : number
}.
End Metric.

Inductive Item : Type :=
| TransactionItem (r : Transaction.t)
| BudgetItem (r : BudgetCategory.t)
| MetricItem (r : Metric.t).

(** ** The mock data provider *)

Definition Financial_Transactions : list Transaction.t :=
  [ Transaction.Build (Number.of_Z 1) "Q2 Revenue" (Number.of_Z 125000)
      "Income" "2025-06-01T00:00:00Z" "Completed";
    Transaction.Build (Number.of_Z 2) "Office Operations" (Number.of_Z (-15000))
      "Operating Expense" "2025-06-02T00:00:00Z" "Completed";
    Transaction.Build (Number.of_Z 3) "Marketing Campaign" (Number.of_Z (-8500))
      "Marketing" "2025-06-03T00:00:00Z" "Pending";
    Transaction.Build (Number.of_Z 4) "Software Licenses" (Number.of_Z (-3200))
      "Technology" "2025-06-04T00:00:00Z" "Completed" ].

Definition Budget_Categories : list BudgetCategory.t :=
  [ BudgetCategory.Build (Number.of_Z 1) "Marketing" (Number.of_Z 15000) (Number.of_Z 12500);
    BudgetCategory.Build (Number.of_Z 2) "Technology" (Number.of_Z 8000) (Number.of_Z 6200);
    BudgetCategory.Build (Number.of_Z 3) "Operations" (Number.of_Z 25000) (Number.of_Z 18300);
    BudgetCategory.Build (Number.of_Z 4) "Travel" (Number.of_Z 5000) (Number.of_Z 1200) ].

Definition Company_Metrics : list Metric.t :=
  [ Metric.Build (Number.of_Z 1) "Total Revenue" (Number.of_Z 125000) (Number.of_Z 110000);
    Metric.Build (Number.of_Z 2) "Operating Expenses" (Number.of_Z 52000) (Number.of_Z 58000);
    Metric.Build (Number.of_Z 3) "Net Profit" (Number.of_Z 73000) (Number.of_Z 52000);
    Metric.Build (Number.of_Z 4) "Growth Rate" (Number.decimal 185 1) (Number.decimal 123 1) ].

(** The object literal [mockData]: its own properties. *)
Definition mockData : gmap string (list Item) :=
  <["Financial_Transactions" := map TransactionItem Financial_Transactions]>
  (<["Budget_Categories" := map BudgetItem Budget_Categories]>
  (<["Company_Metrics" := map MetricItem Company_Metrics]> ∅)).

(** The property names every object literal inherits from
    [Object.prototype]. *)
Definition Object_prototype_names : list string :=
  [ "constructor"; "hasOwnProperty"; "isPrototypeOf"; "propertyIsEnumerable";
    "toLocaleString"; "toString"; "valueOf"; "__proto__";
    "__defineGetter__"; "__defineSetter__"; "__lookupGetter__";
    "__lookupSetter__" ].

(** What [mockData[listTitle]] can evaluate to. *)
Inductive Value : Type :=
| Undefined
| Array (items : list Item)
| Inherited (name : string).

(** [o[key]]: an own property first, then the prototype chain. *)
Definition Get (o : gmap string (list Item)) (key : string) : Value :=
  match o !! key with
  | Some items => Array items
  | None =>
      if bool_decide (key ∈ Object_prototype_names) then Inherited key
      else Undefined
  end.

(** [v || d]: [undefined] is falsy, every array (also the empty one) and
    every function or object is truthy. *)
Definition or_else (v d : Value) : Value :=
  match v with
  | Undefined => d
  | _ => v
  end.

(** [return mockData[listTitle] || [];] *)
Definition getMockData (listTitle : string) : Value :=
  or_else (Get mockData listTitle) (Array []).

(** The dataset names the provider knows. *)
Definition recognized (listTitle : string) : Prop :=
  listTitle = "Financial_Transactions" \/ listTitle = "Budget_Categories"
  \/ listTitle = "Company_Metrics".

(** *** Promises *)

Inductive Settled (A : Type) : Type :=
| Fulfilled (v : A)
| Rejected (reason : string).
Arguments Fulfilled {A} v.
Arguments Rejected {A} reason.

(** A promise: the time in milliseconds after which it settles, and how. *)
Record Promise (A : Type) : Type := MkPromise {
  settles_after : Z;
  outcome : Settled A
}.
Arguments MkPromise {A} _ _.
Arguments settles_after {A} _.
Arguments outcome {A} _.

(** The promise an async function returns when it reaches [return v]. *)
Definition async_return {A : Type} (v : A) : Promise A :=
  MkPromise 0 (Fulfilled v).

(** [new Promise(resolve => setTimeout(resolve, ms))] *)
Definition timeout (ms : Z) : Promise unit :=
  MkPromise ms (Fulfilled tt).

(** [await p] followed by the rest [k] of the async function: a rejection
    of [p] is thrown and, not being caught, rejects the function's promise. *)
Definition await {A B : Type} (p : Promise A) (k : A -> Promise B) : Promise B :=
  match outcome p with
  | Fulfilled v =>
      let q := k v in
      MkPromise (settles_after p + settles_after q) (outcome q)
  | Rejected reason => MkPromise (settles_after p) (Rejected reason)
  end.

(** The SharePoint REST envelope [{ value: ... }]. *)
Record ListResponse : Type := MkResponse { value : Value }.

(** [static async getListItems(siteUrl, listTitle, selectFields = '*')] *)
Definition getListItems (siteUrl listTitle selectFields : string)
  : Promise ListResponse :=
  await (timeout 800)
    (fun _ => async_return (MkResponse (getMockData listTitle))).

(** ** The sorted view of the transaction table *)

Section Comparator.
Import Transaction.

(** [a[orderBy] < b[orderBy]].  Both operands are the same property of two
    transactions: two numbers are compared as numbers, two strings by code
    units.  For any other key both are [undefined], or the same member
    inherited from [Object.prototype], and the comparison is false. *)
Definition lessThanBy (orderBy : string) (a b : Transaction.t) : bool :=
  if String.eqb orderBy "Id" then Number.lt (Id a) (Id b)
  else if String.eqb orderBy "Title" then String.ltb (Title a) (Title b)
  else if String.eqb orderBy "Amount" then Number.lt (Amount a) (Amount b)
  else if String.eqb orderBy "Category" then String.ltb (Category a) (Category b)
  else if String.eqb orderBy "Date" then String.ltb (Date a) (Date b)
  else if String.eqb orderBy "Status" then String.ltb (Status a) (Status b)
  else false.

(** [a[orderBy] === b[orderBy]]: the two records tie on the field. *)
Definition strictEqualsBy (orderBy : string) (a b : Transaction.t) : bool :=
  if String.eqb orderBy "Id" then Number.strict_eq (Id a) (Id b)
  else if String.eqb orderBy "Title" then String.eqb (Title a) (Title b)
  else if String.eqb orderBy "Amount" then Number.strict_eq (Amount a) (Amount b)
  else if String.eqb orderBy "Category" then String.eqb (Category a) (Category b)
  else if String.eqb orderBy "Date" then String.eqb (Date a) (Date b)
  else if String.eqb orderBy "Status" then String.eqb (Status a) (Status b)
  else true.

(** The comparison function handed to [sort]:
    [if (order === 'asc') return a[orderBy] < b[orderBy] ? -1 : 1;
     return a[orderBy] > b[orderBy] ? -1 : 1;] *)
Definition compareFn (order orderBy : string) (a b : Transaction.t) : Z :=
  if String.eqb order "asc"
  then (if lessThanBy orderBy a b then -1 else 1)
  else (if lessThanBy orderBy b a then -1 else 1).

(** The numeric fields of a record of the data model are finite binary64
    numbers. *)
Definition well_formed (a : Transaction.t) : bool :=
  Number.is_decimal (Id a) && Number.is_decimal (Amount a).

(** No two records of the sequence have equal values of the field. *)
Definition no_ties (orderBy : string) (l : list Transaction.t) : Prop :=
  ForallOrdPairs (fun a b => strictEqualsBy orderBy a b = false) l.

End Comparator.

(** *** Array.prototype.sort

    The algorithm is the engine's: the language fixes the order of the
    result only for a consistent comparison function and leaves it to the
    implementation otherwise.  [compareFn] never returns 0, so what is
    assumed of the engine is what every comparison sort provides: the
    result is a rearrangement of the array, and it is in order whenever the
    comparison function orders the elements of the array strictly and
    totally, that is: the elements are pairwise different, [cmp a b < 0]
    makes [cmp b a] positive, one of [cmp a b < 0] and [cmp b a < 0] holds
    for different elements, and [cmp _ _ < 0] is transitive. *)

Definition ArraySort : Type :=
  forall A : Type, (A -> A -> Z) -> list A -> list A.

Definition strict_order_on {A : Type} (cmp : A -> A -> Z) (l : list A) : Prop :=
  List.NoDup l
  /\ (forall a b, In a l -> In b l -> cmp a b < 0 -> 0 < cmp b a)
  /\ (forall a b, In a l -> In b l -> a <> b -> cmp a b < 0 \/ cmp b a < 0)
  /\ (forall a b c, In a l -> In b l -> In c l ->
        cmp a b < 0 -> cmp b c < 0 -> cmp a c < 0).

Record conforming (sort : ArraySort) : Prop := {
  sort_permutation :
    forall (A : Type) (cmp : A -> A -> Z) (l : list A),
      Permutation l (sort A cmp l);
  sort_in_order :
    forall (A : Type) (cmp : A -> A -> Z) (l : list A),
      strict_order_on cmp l ->
      StronglySorted (fun a b => cmp a b < 0) (sort A cmp l)
}.

(** One such algorithm, the insertion sort engines use for short arrays:
    [for (i = 1; i < n; i++) { item = a[i];
       for (j = i - 1; j >= 0; j--) { swap = a[j];
         if (comparefn(swap, item) <= 0) break; a[j + 1] = swap; }
       a[j + 1] = item; }].
    [insert_item] is the inner loop; the sorted prefix is kept reversed, so
    that its head is [a[j]]. *)
Fixpoint insert_item {A : Type} (cmp : A -> A -> Z) (item : A) (prefix : list A)
  : list A :=
  match prefix with
  | [] => [item]
  | swap :: rest =>
      if cmp swap item <=? 0 then item :: swap :: rest
      else swap :: insert_item cmp item rest
  end.

Definition InsertionSort : ArraySort :=
  fun A cmp l => rev (fold_left (fun prefix item => insert_item cmp item prefix) l []).

Section SortedView.
Variable sort : ArraySort.

(** [[...transactions].sort((a, b) => ...)], as a function of the contents
    of the array. *)
Definition sortedTransactions (transactions : list Transaction.t)
    (order orderBy : string) : list Transaction.t :=
  sort _ (compareFn order orderBy) transactions.

(** The same with arrays as objects in a heap. *)
Definition loc : Type := positive.

(** [[...a]]: a new array with the elements of [a]. *)
Definition spread (a : loc) (h : gmap loc (list Transaction.t))
  : option (loc * gmap loc (list Transaction.t)) :=
  items ← h !! a;
  let copy := fresh (dom h) in
  Some (copy, <[copy := items]> h).

(** [a.sort(comparefn)]: sorts [a] in place and returns [a]. *)
Definition sort_in_place (cmp : Transaction.t -> Transaction.t -> Z) (a : loc)
    (h : gmap loc (list Transaction.t))
  : option (loc * gmap loc (list Transaction.t)) :=
  items ← h !! a;
  Some (a, <[a := sort _ cmp items]> h).

Definition sortedTransactions_heap (transactions : loc) (order orderBy : string)
    (h : gmap loc (list Transaction.t))
  : option (loc * gmap loc (list Transaction.t)) :=
  '(copy, h1) ← spread transactions h;
  sort_in_place (compareFn order orderBy) copy h1.

End SortedView.

(** ** Reading back a numeral with one decimal place *)

(** The text before and after the first point. *)
Fixpoint split_at_point (s : string) : option (string * string) :=
  match s with
  | "" => None
  | String c s' =>
      if Ascii.eqb c "." then Some ("", s')
      else match split_at_point s' with
           | Some (a, b) => Some (String c a, b)
           | None => None
           end
  end.

(** The number of tenths an unsigned numeral [ddd.d] stands for. *)
Definition tenths (s : string) : option Z :=
  match split_at_point s with
  | Some (String c a, String d "") =>
      match NilEmpty.uint_of_string (String c a +:+ String d "") with
      | Some u => Some (Z.of_N (N.of_uint u))
      | None => None
      end
  | _ => None
  end.

(** The value of a numeral [ddd.d] or [-ddd.d]; [None] for any other
    text. *)
Definition one_decimal (s : string) : option Q :=
  match s with
  | String "-" s' =>
      match tenths s' with
      | Some n => Some (- (n # 10))%Q
      | None => None
      end
  | _ =>
      match tenths s with
      | Some n => Some (n # 10)%Q
      | None => None
      end
  end.

(** [r] is the numeral of [x] rounded to one decimal place: it has one
    digit after the point and its value is within a twentieth of [x]. *)
Definition rounded_to_one_decimal (x : number) (r : completion string) : Prop :=
  exists s q,
    r = Normal s /\ one_decimal s = Some q
    /\ (Qabs (q - Number.value x) <= 1 # 20)%Q.

(** [r] is the numeral of [x] rounded to the nearest tenth, a tie going
    away from zero: it has one digit after the point, its value [q] does
    not have the sign opposite to that of [x], and
    [|q| - 0.05 <= |x| < |q| + 0.05]. *)
Definition rounded_half_away_from_zero (x : number) (r : completion string)
  : Prop :=
  exists s q,
    r = Normal s /\ one_decimal s = Some q
    /\ (Qabs q - (1 # 20) <= Qabs (Number.value x))%Q
    /\ (Qabs (Number.value x) < Qabs q + (1 # 20))%Q
    /\ (0 <= q * Number.value x)%Q.

(** ** The data hook *)

Module Hook.

(** The three state cells of [useSharePointData]. *)
Record state : Type := MkState {
  data : Value;
  loading : bool;
  error : option string
}.

(** [useState([])], [useState(true)], [useState(null)]. *)
Definition initial : state := MkState (Array []) true None.

(** The part of [fetchData] before the [await]:
    [setLoading(true); setError(null);]. *)
Definition started (s : state) : state :=
  MkState (data s) true None.

(** [typeof v === 'function']: of the members inherited from
    [Object.prototype] all are functions but [__proto__], which is the
    prototype object itself. *)
Definition is_function (v : Value) : bool :=
  match v with
  | Inherited name => negb (String.eqb name "__proto__")
  | _ => false
  end.

(** [setData(v)]: a value that is not a function is stored.  A function
    is not stored: React calls it as an updater on the previous data.
    That call is outside this model: the result is [None]. *)
Definition setData (v : Value) (s : state) : option state :=
  if is_function v then None
  else Some (MkState v (loading s) (error s)).

(** [setError(err.message)]. *)
Definition setError (message : string) (s : state) : state :=
  MkState (data s) (loading s) (Some message).

(** [setLoading(false)]. *)
Definition setLoading (b : bool) (s : state) : state :=
  MkState (data s) b (error s).

(** The part after the [await]: [setData(result.value)] when the promise
    is fulfilled, [setError(err.message)] in the [catch] when it is
    rejected, and [setLoading(false)] in the [finally]. *)
Definition settled (p : Promise ListResponse) (s : state) : option state :=
  match outcome p with
  | Fulfilled result =>
      match setData (value result) s with
      | Some s' => Some (setLoading false s')
      | None => None
      end
  | Rejected reason => Some (setLoading false (setError reason s))
  end.

(** The state once [fetchData] has run for [listName]; [siteUrl] is
    [window.location.origin], and [selectFields] takes its default. *)
Definition fetchData (siteUrl listName : string) (s : state) : option state :=
  settled (getListItems siteUrl listName "*") (started s).

End Hook.

(** ** The sort state of the transaction table *)

Module TableState.

(** [order] and [orderBy] of [TransactionTable]. *)
Record t : Type := Mk {
  order : string;
  orderBy : string
}.

(** [useState('desc')], [useState('Date')]. *)
Definition initial : t := Mk "desc" "Date".

End TableState.

(** The column headers, each of which calls [handleRequestSort] with its
    own name when it is clicked. *)
Definition headers : list string :=
  ["Title"; "Amount"; "Category"; "Date"; "Status"].

(** [const isAsc = orderBy === property && order === 'asc';
     setOrder(isAsc ? 'desc' : 'asc'); setOrderBy(property);] *)
Definition handleRequestSort (property : string) (s : TableState.t)
  : TableState.t :=
  let isAsc := String.eqb (TableState.orderBy s) property
               && String.eqb (TableState.order s) "asc" in
  TableState.Mk (if isAsc then "desc" else "asc") property.

(** The state after a sequence of clicks on headers. *)
Definition after_clicks (clicks : list string) (s : TableState.t)
  : TableState.t :=
  fold_left (fun s property => handleRequestSort property s) clicks s.

(** The rows the table shows in a state. *)
Definition tableRows (sort : ArraySort) (transactions : list Transaction.t)
    (s : TableState.t) : list Transaction.t :=
  sortedTransactions sort transactions (TableState.order s) (TableState.orderBy s).

(** ** The budget overview *)

Module BudgetOverview.
Import BudgetCategory.

(** [Math.min(x, y)]: NaN if one of them is, and [-0] below [+0]. *)
Definition Math_min (x y : number) : number :=
  match x, y with
  | S754_nan, _ | _, S754_nan => S754_nan
  | _, _ =>
      if Number.lt x y then x
      else if Number.lt y x then y
      else match x with
           | S754_zero true => x
           | _ => y
           end
  end.

(** [const percentage = (budget.Spent / budget.Allocated) * 100;] *)
Definition percentage (budget : BudgetCategory.t) : number :=
  Number.mul (Number.div (Spent budget) (Allocated budget)) (Number.of_Z 100).

(** [const remaining = budget.Allocated - budget.Spent;] *)
Definition remaining (budget : BudgetCategory.t) : number :=
  Number.sub (Allocated budget) (Spent budget).

(** [const isOverBudget = percentage > 100;] *)
Definition isOverBudget (budget : BudgetCategory.t) : bool :=
  Number.lt (Number.of_Z 100) (percentage budget).

(** [const isWarning = percentage > 75;] *)
Definition isWarning (budget : BudgetCategory.t) : bool :=
  Number.lt (Number.of_Z 75) (percentage budget).

(** [value={Math.min(percentage / 100, 1)}] of the progress bar. *)
Definition progressValue (budget : BudgetCategory.t) : number :=
  Math_min (Number.div (percentage budget) (Number.of_Z 100)) (Number.of_Z 1).

(** [color={isOverBudget ? 'error' : isWarning ? 'warning' : 'success'}] *)
Definition progressColor (budget : BudgetCategory.t) : string :=
  if isOverBudget budget then "error"
  else if isWarning budget then "warning"
  else "success".

(** [percentage.toFixed(1)], the number in front of "% used". *)
Definition usedLabel (budget : BudgetCategory.t) : completion string :=
  Number.toFixed (percentage budget) 1.

End BudgetOverview.

(** * Properties *)

(** ** Percentage change *)

Section NumberFacts.
Import Number.

Lemma div_by_zero (x : number) (s : bool) :
  div x (S754_zero s) = S754_nan
  \/ exists s', div x (S754_zero s) = S754_infinity s'.
Proof. destruct x; simpl; eauto. Qed.

Lemma percentChange_zero_previous (current : number) (s : bool) :
  percentChange current (S754_zero s) = S754_nan
  \/ exists s', percentChange current (S754_zero s) = S754_infinity s'.
Proof.
  unfold percentChange.
  destruct (div_by_zero (sub current (S754_zero s)) s) as [-> | [s' ->]].
  - now left.
  - right. exists s'. now destruct s'.
Qed.

(** *** Strings of digits *)

Lemma digits_nonempty (n : Z) : digits n <> "".
Proof.
  unfold digits. destruct (Z.to_N n) as [|p]; simpl; [discriminate|].
  pose proof (DecimalPos.Unsigned.to_uint_nonnil p) as Hp.
  destruct (Pos.to_uint p); simpl; congruence.
Qed.

Lemma digits_read (n : Z) :
  0 <= n ->
  exists u, NilEmpty.uint_of_string (digits n) = Some u
            /\ Z.of_N (N.of_uint u) = n.
Proof.
  intros Hn. exists (N.to_uint (Z.to_N n)). split.
  - apply NilEmpty.usu.
  - rewrite Unsigned.of_to. now apply Z2N.id.
Qed.

Lemma length_append (s t : string) :
  String.length (s +:+ t) = (String.length s + String.length t)%nat.
Proof. induction s as [|c s IH]; simpl; [reflexivity | now rewrite IH]. Qed.

(** A nonempty string is its first characters followed by its last one. *)
Lemma split_last (s : string) :
  s <> "" ->
  exists a d,
    substring 0 (String.length s - 1) s = a
    /\ substring (String.length s - 1) 1 s = String d ""
    /\ s = a +:+ String d "".
Proof.
  induction s as [|c s IH]; [congruence|]. intros _.
  destruct s as [|c' s'].
  - exists "", c. now simpl.
  - destruct IH as (a & d & Ha & Hd & Hs); [discriminate|].
    exists (String c a), d. simpl String.length in *.
    replace (S (S (String.length s')) - 1)%nat
      with (S (String.length s')) by lia.
    replace (S (String.length s') - 1)%nat with (String.length s') in * by lia.
    repeat split.
    + change (String c (substring 0 (String.length s') (String c' s')) = String c a).
      now rewrite Ha.
    + exact Hd.
    + simpl. now rewrite Hs at 1.
Qed.

Lemma point_after_digits (a b : string) (u : Decimal.uint) :
  NilEmpty.uint_of_string (a +:+ b) = Some u ->
  split_at_point (a +:+ String "." b) = Some (a, b).
Proof.
  revert u. induction a as [|c a IH]; intros u Hu; [reflexivity|].
  simpl in Hu. destruct (NilEmpty.uint_of_string (a +:+ b)) as [u'|] eqn:E;
    [|discriminate].
  simpl. rewrite (IH u' eq_refl).
  apply uint_of_char_spec in Hu.
  decompose [or and] Hu; subst; reflexivity.
Qed.

Lemma first_digit_not_minus (c : ascii) (s : string) (u : Decimal.uint) :
  NilEmpty.uint_of_string (String c s) = Some u -> c <> "-"%char.
Proof.
  simpl. destruct (NilEmpty.uint_of_string s); [|discriminate].
  intros Hu. apply uint_of_char_spec in Hu.
  decompose [or and] Hu; subst; discriminate.
Qed.

Lemma one_decimal_unsigned (c : ascii) (s : string) :
  c <> "-"%char ->
  one_decimal (String c s)
  = match tenths (String c s) with
    | Some n => Some (n # 10)%Q
    | None => None
    end.
Proof.
  intros Hc. unfold one_decimal.
  destruct c as [[] [] [] [] [] [] [] []]; try reflexivity; congruence.
Qed.

(** The digits of [n] with a point before the last one. *)
Lemma fixed_digits_shape (n : Z) :
  0 <= n ->
  exists c a d u,
    fixed_digits n 1 = String c a +:+ String "." (String d "")
    /\ NilEmpty.uint_of_string (String c a +:+ String d "") = Some u
    /\ Z.of_N (N.of_uint u) = n.
Proof.
  intros Hn. destruct (digits_read n Hn) as (u & Hu & Hval).
  pose proof (digits_nonempty n) as Hne.
  unfold fixed_digits. set (m := digits n) in *.
  destruct (split_last m Hne) as (a & d & Ha & Hd & Hm).
  destruct a as [|c a].
  - (* one digit: a zero is put in front *)
    simpl in Hm. rewrite Hm. simpl.
    exists "0"%char, "", d, (Decimal.D0 u). repeat split.
    + rewrite Hm in Hu. simpl in *. now rewrite Hu.
    + exact Hval.
  - assert (Hlen : (String.length m <=? 1)%nat = false).
    { apply Nat.leb_gt. rewrite Hm, length_append. simpl. lia. }
    rewrite Hlen. rewrite Ha, Hd.
    exists c, a, d, u. repeat split.
    + now rewrite <- Hm.
    + exact Hval.
Qed.

Lemma tenths_fixed_digits (n : Z) :
  0 <= n -> tenths (fixed_digits n 1) = Some n.
Proof.
  intros Hn. destruct (fixed_digits_shape n Hn) as (c & a & d & u & -> & Hu & Hval).
  unfold tenths. rewrite (point_after_digits _ _ _ Hu), Hu. now rewrite Hval.
Qed.

Lemma one_decimal_fixed_digits (n : Z) (negative : bool) :
  0 <= n ->
  one_decimal ((if negative then "-" else "") +:+ fixed_digits n 1)
  = Some (if negative then - (n # 10) else n # 10)%Q.
Proof.
  intros Hn. destruct negative.
  - change ("-" +:+ fixed_digits n 1) with (String "-" (fixed_digits n 1)).
    unfold one_decimal. cbv iota beta. now rewrite tenths_fixed_digits.
  - pose proof (tenths_fixed_digits n Hn) as Ht.
    destruct (fixed_digits_shape n Hn) as (c & a & d & u & E & Hu & _).
    change ("" +:+ fixed_digits n 1) with (fixed_digits n 1).
    rewrite E in *. simpl in Hu.
    assert (Hc : c <> "-"%char).
    { eapply first_digit_not_minus. simpl. exact Hu. }
    change (String c a +:+ String "." (String d ""))
      with (String c (a +:+ String "." (String d ""))) in *.
    now rewrite (one_decimal_unsigned _ _ Hc), Ht.
Qed.

(** *** Rounding to the nearest tenth *)

Lemma nearest_scaled_nonneg (r : Q) : (0 <= r)%Q -> 0 <= nearest_scaled r 1.
Proof.
  intros Hr. unfold nearest_scaled.
  change 0 with (Qfloor 0). apply Qfloor_resp_le.
  change (inject_Z (10 ^ 1)) with (10 # 1)%Q. lra.
Qed.

Lemma nearest_scaled_close (r : Q) :
  (Qabs ((nearest_scaled r 1 # 10) - r) <= 1 # 20)%Q.
Proof.
  unfold nearest_scaled. change (inject_Z (10 ^ 1)) with (inject_Z 10).
  set (n := Qfloor (r * inject_Z 10 + (1 # 2))).
  pose proof (Qfloor_le (r * inject_Z 10 + (1 # 2))) as Hlo.
  pose proof (Qlt_floor (r * inject_Z 10 + (1 # 2))) as Hhi.
  fold n in Hlo, Hhi.
  assert (E : (n # 10 == inject_Z n * (1 # 10))%Q).
  { unfold Qeq. simpl. lia. }
  rewrite E. rewrite inject_Z_plus in Hhi.
  apply Qabs_Qle_condition.
  change (inject_Z 10) with (10 # 1)%Q in *.
  change (inject_Z 1) with (1 # 1)%Q in *.
  split; lra.
Qed.

Lemma toFixed_fixed_notation (x : number) :
  is_finite x = true ->
  (Qabs (value x) < inject_Z (10 ^ 21))%Q ->
  toFixed x 1
  = Normal ((if Qle_bool 0 (value x) then "" else "-")
            +:+ fixed_digits (nearest_scaled (Qabs (value x)) 1) 1).
Proof.
  intros Hfin Hsmall. unfold toFixed.
  change ((1 <? 0) || (100 <? 1)) with false. cbv iota.
  rewrite Hfin. cbn [negb].
  destruct (Qle_bool (inject_Z (10 ^ 21)) (Qabs (value x))) eqn:E.
  - apply Qle_bool_iff in E. exfalso. apply (Qlt_not_le _ _ Hsmall E).
  - reflexivity.
Qed.

Lemma toFixed_rounds (x : number) :
  is_finite x = true ->
  (Qabs (value x) < inject_Z (10 ^ 21))%Q ->
  rounded_to_one_decimal x (toFixed x 1).
Proof.
  intros Hfin Hsmall. rewrite (toFixed_fixed_notation x Hfin Hsmall).
  unfold rounded_to_one_decimal. set (r := value x) in *.
  set (n := nearest_scaled (Qabs r) 1).
  assert (Hn : 0 <= n) by (apply nearest_scaled_nonneg, Qabs_nonneg).
  pose proof (nearest_scaled_close (Qabs r)) as Hclose. fold n in Hclose.
  destruct (Qle_bool 0 r) eqn:Hsign.
  - apply Qle_bool_iff in Hsign.
    exists ("" +:+ fixed_digits n 1), (n # 10)%Q. repeat split.
    + apply (one_decimal_fixed_digits n false Hn).
    + rewrite (Qabs_pos r Hsign) in Hclose. exact Hclose.
  - assert (Hneg : (r <= 0)%Q).
    { destruct (Qlt_le_dec 0 r) as [Hpos|Hle]; [|exact Hle].
      apply Qlt_le_weak, Qle_bool_iff in Hpos. congruence. }
    exists ("-" +:+ fixed_digits n 1), (- (n # 10))%Q. repeat split.
    + apply (one_decimal_fixed_digits n true Hn).
    + rewrite (Qabs_neg r Hneg) in Hclose.
      assert (E : (- (n # 10) - r == - ((n # 10) - - r))%Q) by ring.
      rewrite E, Qabs_opp. exact Hclose.
Qed.

Lemma nearest_scaled_half_open (r : Q) :
  ((nearest_scaled r 1 # 10) - (1 # 20) <= r
   /\ r < (nearest_scaled r 1 # 10) + (1 # 20))%Q.
Proof.
  unfold nearest_scaled. change (inject_Z (10 ^ 1)) with (inject_Z 10).
  set (n := Qfloor (r * inject_Z 10 + (1 # 2))).
  pose proof (Qfloor_le (r * inject_Z 10 + (1 # 2))) as Hlo.
  pose proof (Qlt_floor (r * inject_Z 10 + (1 # 2))) as Hhi.
  fold n in Hlo, Hhi.
  assert (E : (n # 10 == inject_Z n * (1 # 10))%Q).
  { unfold Qeq. simpl. lia. }
  rewrite E. rewrite inject_Z_plus in Hhi.
  change (inject_Z 10) with (10 # 1)%Q in *.
  change (inject_Z 1) with (1 # 1)%Q in *.
  split; lra.
Qed.

Lemma tenths_nonneg (n : Z) : 0 <= n -> (0 <= n # 10)%Q.
Proof. intros Hn. unfold Qle. simpl. lia. Qed.

Lemma toFixed_rounds_half_away (x : number) :
  is_finite x = true ->
  (Qabs (value x) < inject_Z (10 ^ 21))%Q ->
  rounded_half_away_from_zero x (toFixed x 1).
Proof.
  intros Hfin Hsmall. rewrite (toFixed_fixed_notation x Hfin Hsmall).
  unfold rounded_half_away_from_zero. set (r := value x) in *.
  set (n := nearest_scaled (Qabs r) 1).
  assert (Hn : 0 <= n) by (apply nearest_scaled_nonneg, Qabs_nonneg).
  pose proof (tenths_nonneg n Hn) as Hq.
  destruct (nearest_scaled_half_open (Qabs r)) as [Hlo Hhi].
  fold n in Hlo, Hhi.
  destruct (Qle_bool 0 r) eqn:Hsign.
  - apply Qle_bool_iff in Hsign.
    exists ("" +:+ fixed_digits n 1), (n # 10)%Q.
    split; [reflexivity|]. split; [apply (one_decimal_fixed_digits n false Hn)|].
    rewrite (Qabs_pos (n # 10) Hq).
    split; [exact Hlo|]. split; [exact Hhi|].
    now apply Qmult_le_0_compat.
  - assert (Hneg : (r <= 0)%Q).
    { destruct (Qlt_le_dec 0 r) as [Hpos|Hle]; [|exact Hle].
      apply Qlt_le_weak, Qle_bool_iff in Hpos. congruence. }
    exists ("-" +:+ fixed_digits n 1), (- (n # 10))%Q.
    split; [reflexivity|]. split; [apply (one_decimal_fixed_digits n true Hn)|].
    rewrite Qabs_opp, (Qabs_pos (n # 10) Hq).
    split; [exact Hlo|]. split; [exact Hhi|].
    assert (E : (- (n # 10) * r == (n # 10) * - r)%Q) by ring.
    rewrite E. apply Qmult_le_0_compat; [exact Hq|]. lra.
Qed.

End NumberFacts.

(** *** The claims about [calculateChange] *)

Section PercentChange.
Import Number.

Example calculateChange_beyond_fixed_notation :
  calculateChange (of_Z (10 ^ 21)) (of_Z 1) = Normal "1e+23".
Proof. vm_compute. reflexivity. Qed.

(** C1 (the code departs from it).  With a previous value of zero
    [calculateChange] does not throw, but what it returns is the text of an
    invalid numeric result and no sentinel: "Infinity" for 5 and 0, "NaN"
    for 0 and 0, and for every current value one of "NaN", "Infinity" and
    "-Infinity". *)
Theorem calculateChange_zero_previous :
  calculateChange (of_Z 5) (of_Z 0) = Normal "Infinity"
  /\ calculateChange (of_Z 0) (of_Z 0) = Normal "NaN"
  /\ forall (current : number) (s : bool),
       calculateChange current (S754_zero s) = Normal "NaN"
       \/ calculateChange current (S754_zero s) = Normal "Infinity"
       \/ calculateChange current (S754_zero s) = Normal "-Infinity".
Proof.
  split; [vm_compute; reflexivity|]. split; [vm_compute; reflexivity|].
  intros current s. unfold calculateChange.
  destruct (percentChange_zero_previous current s) as [-> | [[] ->]]; auto.
Qed.

(** C2 as stated fails in two ways.  From 10^21 on [toFixed] writes the
    number in exponential notation: for current 10^19 and previous 1 the
    value is 10^21 and the result is the text "1e+21".  And the quotient of
    two finite numbers can overflow: for current 2^1023 and previous 0.5
    the result is the text "Infinity".  Neither is a numeral with one
    decimal place. *)
Lemma calculateChange_not_always_rounded :
  (is_decimal (of_Z (10 ^ 19)) = true /\ is_decimal (of_Z 1) = true
   /\ strict_eq (of_Z 1) (of_Z 0) = false
   /\ percentChange (of_Z (10 ^ 19)) (of_Z 1) = of_Z (10 ^ 21)
   /\ calculateChange (of_Z (10 ^ 19)) (of_Z 1) = Normal "1e+21"
   /\ ~ rounded_to_one_decimal (percentChange (of_Z (10 ^ 19)) (of_Z 1))
                               (calculateChange (of_Z (10 ^ 19)) (of_Z 1)))
  /\ (is_decimal (S754_finite false (2 ^ 52) 971) = true
      /\ is_decimal (decimal 5 1) = true
      /\ strict_eq (decimal 5 1) (of_Z 0) = false
      /\ calculateChange (S754_finite false (2 ^ 52) 971) (decimal 5 1)
         = Normal "Infinity"
      /\ ~ rounded_to_one_decimal
             (percentChange (S754_finite false (2 ^ 52) 971) (decimal 5 1))
             (calculateChange (S754_finite false (2 ^ 52) 971) (decimal 5 1))).
Proof.
  split.
  - repeat (split; [vm_compute; reflexivity|]).
    intros (s & q & Hs & Hq & _).
    vm_compute in Hs. injection Hs as <-. vm_compute in Hq. discriminate.
  - repeat (split; [vm_compute; reflexivity|]).
    intros (s & q & Hs & Hq & _).
    vm_compute in Hs. injection Hs as <-. vm_compute in Hq. discriminate.
Qed.

(** C2 (amended).  Whenever the binary64 value [x] of
    [(current - previous) / previous * 100] is finite and below 10^21 in
    magnitude, [calculateChange] returns the numeral of [x] rounded to one
    decimal place, to the nearest tenth and away from zero on a tie: a text
    [ddd.d] or [-ddd.d] whose value [q] is within 0.05 of [x], does not
    have the opposite sign, and satisfies
    [|q| - 0.05 <= |x| < |q| + 0.05]. *)
Theorem calculateChange_rounds (current previous : number) :
  is_finite (percentChange current previous) = true ->
  (Qabs (value (percentChange current previous)) < inject_Z (10 ^ 21))%Q ->
  rounded_to_one_decimal (percentChange current previous)
                         (calculateChange current previous)
  /\ rounded_half_away_from_zero (percentChange current previous)
                                 (calculateChange current previous).
Proof.
  intros Hfin Hsmall. split.
  - now apply toFixed_rounds.
  - now apply toFixed_rounds_half_away.
Qed.

Lemma calculateChange_rounds_witness :
  is_finite (percentChange (of_Z 17) (of_Z 16)) = true
  /\ (Qabs (value (percentChange (of_Z 17) (of_Z 16)))
      < inject_Z (10 ^ 21))%Q
  /\ rounded_to_one_decimal (percentChange (of_Z 17) (of_Z 16))
                            (calculateChange (of_Z 17) (of_Z 16))
  /\ rounded_half_away_from_zero (percentChange (of_Z 17) (of_Z 16))
                                 (calculateChange (of_Z 17) (of_Z 16)).
Proof.
  split; [vm_compute; reflexivity|]. split; [vm_compute; reflexivity|].
  apply (calculateChange_rounds (of_Z 17) (of_Z 16));
    vm_compute; reflexivity.
Defined.

(** At a tie the larger tenth is the only numeral that qualifies: for
    current 17 and previous 16 the value is 6.25, the result is "6.3", and
    "6.2" is not the value rounded away from zero. *)
Example calculateChange_tie :
  value (percentChange (of_Z 17) (of_Z 16)) == 625 # 100
  /\ calculateChange (of_Z 17) (of_Z 16) = Normal "6.3"
  /\ ~ rounded_half_away_from_zero (percentChange (of_Z 17) (of_Z 16))
                                   (Normal "6.2").
Proof.
  split; [vm_compute; reflexivity|]. split; [vm_compute; reflexivity|].
  intros (s & q & Hs & Hq & _ & Hhi & _).
  injection Hs as <-. vm_compute in Hq. injection Hq as <-.
  vm_compute in Hhi. discriminate.
Qed.

(** C3.  [calculateChange(125000, 110000)] is the numeral 13.6 and
    [calculateChange(52000, 58000)] is the numeral -10.3. *)
Theorem calculateChange_samples :
  calculateChange (of_Z 125000) (of_Z 110000) = Normal "13.6"
  /\ calculateChange (of_Z 52000) (of_Z 58000) = Normal "-10.3".
Proof. split; vm_compute; reflexivity. Qed.

End PercentChange.

(** ** The order of field values *)

Section NumberOrder.
Import Number.

Lemma compare_cont_Eq (p q : positive) : Pos.compare_cont Eq p q = (p ?= q)%positive.
Proof. reflexivity. Qed.

Ltac order_cases :=
  repeat (simpl in *; rewrite ?compare_cont_Eq in *;
          match goal with
          | |- context [(?a ?= ?b)%Z] => destruct (Z.compare_spec a b)
          | |- context [(?a ?= ?b)%positive] => destruct (Pos.compare_spec a b)
          end);
  simpl in *; try congruence; try lia.

Lemma number_lt_asym (x y : number) : lt x y = true -> lt y x = false.
Proof.
  unfold lt, SFltb.
  destruct x as [| [] | | [] m e], y as [| [] | | [] m' e']; simpl;
    try congruence; rewrite !compare_cont_Eq; order_cases.
Qed.

Lemma number_lt_trans (x y z : number) :
  lt x y = true -> lt y z = true -> lt x z = true.
Proof.
  unfold lt, SFltb.
  destruct x as [| [] | | [] m e], y as [| [] | | [] m' e'],
           z as [| [] | | [] m'' e'']; simpl;
    try congruence; rewrite ?compare_cont_Eq; order_cases.
Qed.

Lemma number_lt_total (x y : number) :
  x <> S754_nan -> y <> S754_nan ->
  strict_eq x y = false -> lt x y = true \/ lt y x = true.
Proof.
  unfold lt, strict_eq, SFltb, SFeqb.
  destruct x as [| [] | | [] m e], y as [| [] | | [] m' e']; simpl;
    try congruence; auto; rewrite ?compare_cont_Eq; intros _ _;
    order_cases; auto.
Qed.

Lemma number_strict_eq_refl (x : number) : x <> S754_nan -> strict_eq x x = true.
Proof.
  unfold strict_eq, SFeqb.
  destruct x as [| [] | | [] m e]; simpl; try congruence;
    rewrite Z.compare_refl, ?compare_cont_Eq, Pos.compare_refl; reflexivity.
Qed.

Lemma number_strict_eq_sym (x y : number) : strict_eq x y = strict_eq y x.
Proof.
  unfold strict_eq, SFeqb.
  destruct x as [| [] | | [] m e], y as [| [] | | [] m' e']; simpl;
    try reflexivity; order_cases.
Qed.

Lemma is_decimal_not_nan (x : number) : is_decimal x = true -> x <> S754_nan.
Proof. intros H ->. discriminate. Qed.

End NumberOrder.

Section StringOrder.

Lemma ascii_compare_refl (c : ascii) : Ascii.compare c c = Eq.
Proof. unfold Ascii.compare. apply N.compare_refl. Qed.

Lemma ascii_compare_lt_trans (a b c : ascii) :
  Ascii.compare a b = Lt -> Ascii.compare b c = Lt -> Ascii.compare a c = Lt.
Proof.
  unfold Ascii.compare. rewrite !N.compare_lt_iff. apply N.lt_trans.
Qed.

Lemma string_compare_refl (s : string) : String.compare s s = Eq.
Proof.
  induction s as [|c s IH]; simpl; [reflexivity|].
  now rewrite ascii_compare_refl.
Qed.

Lemma string_compare_lt_trans (s t u : string) :
  String.compare s t = Lt -> String.compare t u = Lt -> String.compare s u = Lt.
Proof.
  revert t u. induction s as [|a s IH]; intros [|b t] [|c u]; simpl;
    try congruence.
  destruct (Ascii.compare a b) eqn:Hab; try discriminate;
    destruct (Ascii.compare b c) eqn:Hbc; try discriminate; intros Hst Htu.
  - apply Ascii.compare_eq_iff in Hab, Hbc. subst.
    rewrite ascii_compare_refl. eauto.
  - apply Ascii.compare_eq_iff in Hab. subst. now rewrite Hbc.
  - apply Ascii.compare_eq_iff in Hbc. subst. now rewrite Hab.
  - now rewrite (ascii_compare_lt_trans _ _ _ Hab Hbc).
Qed.

Lemma string_ltb_asym (s t : string) : String.ltb s t = true -> String.ltb t s = false.
Proof.
  unfold String.ltb. rewrite (String.compare_antisym t s).
  destruct (String.compare s t); simpl; congruence.
Qed.

Lemma string_ltb_trans (s t u : string) :
  String.ltb s t = true -> String.ltb t u = true -> String.ltb s u = true.
Proof.
  unfold String.ltb. intros Hst Htu.
  destruct (String.compare s t) eqn:E1; try discriminate.
  destruct (String.compare t u) eqn:E2; try discriminate.
  now rewrite (string_compare_lt_trans _ _ _ E1 E2).
Qed.

Lemma string_ltb_total (s t : string) :
  String.eqb s t = false -> String.ltb s t = true \/ String.ltb t s = true.
Proof.
  intros Hne. unfold String.ltb. rewrite (String.compare_antisym t s).
  destruct (String.compare s t) eqn:E; simpl; auto.
  apply String.compare_eq_iff in E. subst. rewrite String.eqb_refl in Hne.
  discriminate.
Qed.

End StringOrder.

Section ComparatorFacts.
Import Transaction.

Ltac by_key orderBy :=
  unfold lessThanBy, strictEqualsBy;
  repeat match goal with
    | |- context [String.eqb orderBy ?k] => destruct (String.eqb orderBy k)
    end.

Lemma lessThanBy_asym (orderBy : string) (a b : Transaction.t) :
  lessThanBy orderBy a b = true -> lessThanBy orderBy b a = false.
Proof.
  by_key orderBy;
    auto using number_lt_asym, string_ltb_asym.
Qed.

Lemma lessThanBy_trans (orderBy : string) (a b c : Transaction.t) :
  lessThanBy orderBy a b = true -> lessThanBy orderBy b c = true ->
  lessThanBy orderBy a c = true.
Proof.
  by_key orderBy;
    eauto using number_lt_trans, string_ltb_trans.
Qed.

Lemma well_formed_numbers (a : Transaction.t) :
  well_formed a = true -> Id a <> S754_nan /\ Amount a <> S754_nan.
Proof.
  unfold well_formed. intros H. apply andb_prop in H as [H1 H2].
  split; now apply is_decimal_not_nan.
Qed.

Lemma lessThanBy_total (orderBy : string) (a b : Transaction.t) :
  well_formed a = true -> well_formed b = true ->
  strictEqualsBy orderBy a b = false ->
  lessThanBy orderBy a b = true \/ lessThanBy orderBy b a = true.
Proof.
  intros Ha Hb.
  destruct (well_formed_numbers a Ha), (well_formed_numbers b Hb).
  by_key orderBy;
    auto using number_lt_total, string_ltb_total; discriminate.
Qed.

Lemma strictEqualsBy_refl (orderBy : string) (a : Transaction.t) :
  well_formed a = true -> strictEqualsBy orderBy a a = true.
Proof.
  intros Ha. destruct (well_formed_numbers a Ha).
  by_key orderBy;
    auto using number_strict_eq_refl, String.eqb_refl.
Qed.

Lemma strictEqualsBy_sym (orderBy : string) (a b : Transaction.t) :
  strictEqualsBy orderBy a b = strictEqualsBy orderBy b a.
Proof.
  by_key orderBy;
    auto using number_strict_eq_sym, String.eqb_sym.
Qed.

(** What the sign of [compareFn] says. *)
Lemma compareFn_asc (orderBy : string) (a b : Transaction.t) :
  compareFn "asc" orderBy a b < 0 <-> lessThanBy orderBy a b = true.
Proof.
  unfold compareFn. simpl. destruct (lessThanBy orderBy a b); split;
    (lia || congruence).
Qed.

Lemma compareFn_lt (order orderBy : string) (a b : Transaction.t) :
  compareFn order orderBy a b < 0 <->
  (if String.eqb order "asc" then lessThanBy orderBy a b
   else lessThanBy orderBy b a) = true.
Proof.
  unfold compareFn. destruct (String.eqb order "asc");
    [destruct (lessThanBy orderBy a b) | destruct (lessThanBy orderBy b a)];
    split; (lia || congruence).
Qed.

Lemma compareFn_gt (order orderBy : string) (a b : Transaction.t) :
  0 < compareFn order orderBy a b <->
  (if String.eqb order "asc" then lessThanBy orderBy a b
   else lessThanBy orderBy b a) = false.
Proof.
  unfold compareFn. destruct (String.eqb order "asc");
    [destruct (lessThanBy orderBy a b) | destruct (lessThanBy orderBy b a)];
    split; (lia || congruence).
Qed.

(** The two directions are opposite. *)
Lemma compareFn_desc_asc (orderBy : string) (a b : Transaction.t) :
  compareFn "desc" orderBy b a < 0 <-> compareFn "asc" orderBy a b < 0.
Proof. now rewrite !compareFn_lt. Qed.

End ComparatorFacts.

(** ** Sorted lists *)

Section SortedLists.
Context {A : Type}.
Implicit Types (R : A -> A -> Prop) (l : list A).

Lemma StronglySorted_impl R S l :
  (forall a b, In a l -> In b l -> R a b -> S a b) ->
  StronglySorted R l -> StronglySorted S l.
Proof.
  intros HRS Hl. induction Hl as [|x l Hl IH Hx]; constructor.
  - apply IH. intros a b Ha Hb Hab. apply HRS; [now right | now right | exact Hab].
  - rewrite List.Forall_forall in *. intros y Hy.
    apply HRS; [now left | now right | auto].
Qed.

Lemma StronglySorted_snoc R l x :
  StronglySorted R l -> Forall (fun y => R y x) l ->
  StronglySorted R (l ++ [x]).
Proof.
  intros Hl Hx. induction Hl as [|y l Hl IH Hy]; simpl.
  - repeat constructor.
  - inversion Hx as [|? ? Hyx Hlx]; subst. constructor; [auto|].
    apply Forall_app. split; [exact Hy | now constructor].
Qed.

Lemma StronglySorted_rev R l :
  StronglySorted R l -> StronglySorted (fun a b => R b a) (rev l).
Proof.
  intros Hl. induction Hl as [|x l Hl IH Hx]; simpl; [constructor|].
  apply StronglySorted_snoc; [exact IH|].
  rewrite List.Forall_forall in *. intros y Hy. apply Hx. now apply in_rev.
Qed.

(** Two sorted rearrangements of the same elements are the same list, as
    soon as no two different elements are each before the other. *)
Lemma sorted_permutation_unique R l1 l2 :
  (forall a b, In a l1 -> In b l1 -> R a b -> R b a -> False) ->
  StronglySorted R l1 -> StronglySorted R l2 -> Permutation l1 l2 ->
  l1 = l2.
Proof.
  intros Hasym H1. revert l2.
  induction H1 as [|x l1 H1 IH Hx]; intros l2 H2 Hperm.
  - now apply Permutation_nil in Hperm.
  - destruct H2 as [|y l2 H2 Hy].
    + now apply Permutation_sym, Permutation_nil in Hperm.
    + rewrite List.Forall_forall in Hx, Hy.
      assert (x = y) as <-.
      { destruct (Permutation_in x Hperm (or_introl eq_refl)) as [E|Hin];
          [now symmetry|].
        destruct (Permutation_in y (Permutation_sym Hperm) (or_introl eq_refl))
          as [E|Hin']; [exact E|].
        exfalso. apply (Hasym x y); simpl; auto. }
      f_equal. apply IH; auto.
      * intros a b Ha Hb. apply Hasym; now right.
      * now apply Permutation_cons_inv in Hperm.
Qed.

End SortedLists.

(** ** Comparison functions that order a list *)

Section StrictOrder.
Context {A : Type}.
Implicit Types (cmp : A -> A -> Z) (l : list A).

Lemma strict_order_on_asym cmp l a b :
  strict_order_on cmp l -> In a l -> In b l ->
  cmp a b < 0 -> cmp b a < 0 -> False.
Proof.
  intros (_ & Hasym & _) Ha Hb Hab Hba.
  specialize (Hasym a b Ha Hb Hab). lia.
Qed.

Lemma strict_order_on_Permutation cmp l l' :
  Permutation l l' -> strict_order_on cmp l -> strict_order_on cmp l'.
Proof.
  intros Hperm (Hnd & Hasym & Htot & Htrans).
  assert (Hin : forall a, In a l' -> In a l).
  { intros a. apply Permutation_in. now apply Permutation_sym. }
  repeat split.
  - now apply (Permutation_NoDup Hperm).
  - intros a b Ha Hb. apply Hasym; auto.
  - intros a b Ha Hb. apply Htot; auto.
  - intros a b c Ha Hb Hc. apply Htrans; auto.
Qed.

End StrictOrder.

Section ConformingSort.
Variable sort : ArraySort.
Hypothesis sort_conforms : conforming sort.

Lemma sort_in_order_unchanged {A : Type} (cmp : A -> A -> Z) (l : list A) :
  strict_order_on cmp l ->
  StronglySorted (fun a b => cmp a b < 0) l ->
  sort A cmp l = l.
Proof.
  intros Hord Hl. symmetry.
  apply (sorted_permutation_unique (fun a b => cmp a b < 0)).
  - intros a b. now apply strict_order_on_asym.
  - exact Hl.
  - now apply sort_in_order.
  - now apply sort_permutation.
Qed.

Lemma sort_idempotent {A : Type} (cmp : A -> A -> Z) (l : list A) :
  strict_order_on cmp l ->
  sort A cmp (sort A cmp l) = sort A cmp l.
Proof.
  intros Hord. apply sort_in_order_unchanged.
  - apply (strict_order_on_Permutation cmp l); [|exact Hord].
    now apply sort_permutation.
  - now apply sort_in_order.
Qed.

End ConformingSort.

(** ** The insertion sort meets what is assumed of an engine *)

Section InsertionSortFacts.
Context {A : Type}.
Variable cmp : A -> A -> Z.

Lemma insert_item_Permutation (item : A) (prefix : list A) :
  Permutation (item :: prefix) (insert_item cmp item prefix).
Proof.
  induction prefix as [|swap rest IH]; simpl; [reflexivity|].
  destruct (cmp swap item <=? 0); [reflexivity|].
  rewrite perm_swap. now constructor.
Qed.

Lemma insertion_loop_Permutation (l prefix : list A) :
  Permutation (prefix ++ l)
    (fold_left (fun prefix item => insert_item cmp item prefix) l prefix).
Proof.
  revert prefix. induction l as [|item l IH]; intros prefix; simpl.
  - now rewrite app_nil_r.
  - rewrite <- IH. rewrite <- insert_item_Permutation.
    symmetry. apply Permutation_middle.
Qed.

Variable L : list A.
Hypothesis L_ordered : strict_order_on cmp L.

(** The reversed prefix is in descending order. *)
Local Notation descending := (StronglySorted (fun a b => cmp b a < 0)).

Lemma insert_item_descending (item : A) (prefix : list A) :
  In item L -> (forall y, In y prefix -> In y L) -> ~ In item prefix ->
  descending prefix -> descending (insert_item cmp item prefix).
Proof.
  destruct L_ordered as (_ & Hasym & Htot & Htrans).
  intros Hitem Hsub Hnotin Hdesc.
  induction Hdesc as [|swap rest Hdesc IH Hswap]; simpl.
  - repeat constructor.
  - assert (Hswap_in : In swap L) by (apply Hsub; now left).
    assert (Hne : swap <> item) by (intros ->; apply Hnotin; now left).
    pose proof Hswap as Hrest. rewrite List.Forall_forall in Hswap.
    destruct (Z.leb_spec (cmp swap item) 0) as [Hle|Hgt].
    + assert (Hlt : cmp swap item < 0).
      { destruct (Htot swap item Hswap_in Hitem Hne) as [H|H]; [exact H|].
        specialize (Hasym item swap Hitem Hswap_in H). lia. }
      constructor; [now constructor|].
      constructor; [exact Hlt|].
      rewrite List.Forall_forall. intros y Hy.
      apply (Htrans y swap item); auto. apply Hsub. now right.
    + assert (Hlt : cmp item swap < 0).
      { destruct (Htot swap item Hswap_in Hitem Hne) as [H|H]; [lia|exact H]. }
      constructor.
      * apply IH; [intros y Hy; apply Hsub; now right|].
        intros Hin. apply Hnotin. now right.
      * rewrite List.Forall_forall. intros y Hy.
        apply (Permutation_in y (Permutation_sym (insert_item_Permutation item rest))) in Hy.
        destruct Hy as [<-|Hy]; auto.
Qed.

Lemma insertion_loop_descending (l prefix : list A) :
  List.NoDup (prefix ++ l) -> (forall y, In y (prefix ++ l) -> In y L) ->
  descending prefix ->
  descending (fold_left (fun prefix item => insert_item cmp item prefix) l prefix).
Proof.
  revert prefix. induction l as [|item l IH]; intros prefix Hnd Hsub Hdesc;
    simpl; [exact Hdesc|].
  assert (Hperm : Permutation (prefix ++ item :: l)
                              (insert_item cmp item prefix ++ l)).
  { rewrite <- insert_item_Permutation. symmetry. apply Permutation_middle. }
  apply IH.
  - now apply (Permutation_NoDup Hperm).
  - intros y Hy. apply Hsub.
    now apply (Permutation_in y (Permutation_sym Hperm)).
  - apply insert_item_descending; auto.
    + apply Hsub, in_elt.
    + intros y Hy. apply Hsub, in_or_app. now left.
    + apply List.NoDup_remove_2 in Hnd. intros Hin. apply Hnd, in_or_app. now left.
Qed.

End InsertionSortFacts.

Lemma InsertionSort_conforming : conforming InsertionSort.
Proof.
  split; intros A cmp l; unfold InsertionSort.
  - rewrite <- Permutation_rev. apply (insertion_loop_Permutation cmp l []).
  - intros Hord.
    apply (StronglySorted_rev (fun a b => cmp b a < 0)).
    apply (insertion_loop_descending cmp l Hord l []); simpl.
    + now destruct Hord.
    + auto.
    + constructor.
Qed.

(** ** The sorted view *)

Section SortedViewFacts.

Lemma no_ties_NoDup (orderBy : string) (l : list Transaction.t) :
  Forall (fun a => well_formed a = true) l -> no_ties orderBy l ->
  List.NoDup l.
Proof.
  intros Hwf Hties. induction Hties as [|a l Ha Hties IH].
  - constructor.
  - inversion Hwf as [|? ? Hwa Hwl]; subst. constructor; [|auto].
    intros Hin. rewrite List.Forall_forall in Ha.
    specialize (Ha a Hin). rewrite strictEqualsBy_refl in Ha by exact Hwa.
    discriminate.
Qed.

Lemma no_ties_In (orderBy : string) (l : list Transaction.t) (a b : Transaction.t) :
  no_ties orderBy l -> In a l -> In b l -> a <> b ->
  strictEqualsBy orderBy a b = false.
Proof.
  intros Hties Ha Hb Hne.
  destruct (ForallOrdPairs_In Hties a b Ha Hb) as [E | [E | E]];
    [contradiction | exact E | now rewrite strictEqualsBy_sym].
Qed.

(** Without ties [compareFn] orders the records strictly and totally, in
    either direction. *)
Lemma compareFn_strict_order (order orderBy : string) (l : list Transaction.t) :
  Forall (fun a => well_formed a = true) l -> no_ties orderBy l ->
  strict_order_on (compareFn order orderBy) l.
Proof.
  intros Hwf Hties. pose proof Hwf as Hwf'.
  rewrite List.Forall_forall in Hwf'.
  split; [now apply (no_ties_NoDup orderBy)|]. split; [|split].
  - intros a b _ _. rewrite compareFn_lt, compareFn_gt.
    destruct (String.eqb order "asc"); apply lessThanBy_asym.
  - intros a b Ha Hb Hne. rewrite !compareFn_lt.
    pose proof (no_ties_In orderBy l a b Hties Ha Hb Hne) as Hab.
    destruct (lessThanBy_total orderBy a b (Hwf' a Ha) (Hwf' b Hb) Hab);
      destruct (String.eqb order "asc"); auto.
  - intros a b c _ _ _. rewrite !compareFn_lt.
    destruct (String.eqb order "asc"); eauto using lessThanBy_trans.
Qed.

Variable sort : ArraySort.
Hypothesis sort_conforms : conforming sort.

(** C4 (amended).  For every sequence of well-formed records without ties
    on the chosen field, and every direction: a sequence that is already in
    that order is returned as it is, and sorting the sorted sequence again
    yields the same sequence. *)
Theorem sortedTransactions_idempotent
    (transactions : list Transaction.t) (order orderBy : string) :
  Forall (fun a => well_formed a = true) transactions ->
  no_ties orderBy transactions ->
  (StronglySorted (fun a b => compareFn order orderBy a b < 0) transactions ->
   sortedTransactions sort transactions order orderBy = transactions)
  /\ sortedTransactions sort
       (sortedTransactions sort transactions order orderBy) order orderBy
     = sortedTransactions sort transactions order orderBy.
Proof.
  intros Hwf Hties.
  pose proof (compareFn_strict_order order orderBy _ Hwf Hties) as Hord.
  unfold sortedTransactions. split.
  - now apply sort_in_order_unchanged.
  - now apply sort_idempotent.
Qed.

(** C5.  For every sequence of well-formed records in which no two have
    equal values of the chosen field, sorting in ascending direction yields
    exactly the reverse of sorting in descending direction. *)
Theorem sortedTransactions_asc_rev_desc
    (transactions : list Transaction.t) (orderBy : string) :
  Forall (fun a => well_formed a = true) transactions ->
  no_ties orderBy transactions ->
  sortedTransactions sort transactions "asc" orderBy
  = rev (sortedTransactions sort transactions "desc" orderBy).
Proof.
  intros Hwf Hties.
  pose proof (compareFn_strict_order "asc" orderBy _ Hwf Hties) as Hasc.
  pose proof (compareFn_strict_order "desc" orderBy _ Hwf Hties) as Hdesc.
  unfold sortedTransactions.
  apply (sorted_permutation_unique (fun a b => compareFn "asc" orderBy a b < 0)).
  - intros a b. apply strict_order_on_asym.
    apply (strict_order_on_Permutation _ transactions); [|exact Hasc].
    now apply sort_permutation.
  - now apply sort_in_order.
  - apply (StronglySorted_impl (fun a b => compareFn "desc" orderBy b a < 0)).
    + intros a b _ _. apply compareFn_desc_asc.
    + apply (StronglySorted_rev (fun a b => compareFn "desc" orderBy a b < 0)).
      now apply sort_in_order.
  - rewrite <- Permutation_rev.
    rewrite <- (sort_permutation sort sort_conforms _ (compareFn "asc" orderBy)).
    now apply sort_permutation.
Qed.

(** C6.  Sorting the four sample transactions by Amount in ascending
    direction yields the records in the amount order
    -15000, -8500, -3200, 125000, that is Office Operations, Marketing
    Campaign, Software Licenses, Q2 Revenue. *)
Theorem sortedTransactions_sample_by_amount :
  map Transaction.Amount
      (sortedTransactions sort Financial_Transactions "asc" "Amount")
  = map Number.of_Z [-15000; -8500; -3200; 125000]
  /\ map Transaction.Title
        (sortedTransactions sort Financial_Transactions "asc" "Amount")
     = ["Office Operations"; "Marketing Campaign"; "Software Licenses";
        "Q2 Revenue"].
Proof.
  assert (Hwf : Forall (fun a => well_formed a = true) Financial_Transactions)
    by (repeat constructor).
  assert (Hties : no_ties "Amount" Financial_Transactions)
    by (repeat constructor).
  pose proof (compareFn_strict_order "asc" "Amount" _ Hwf Hties) as Hord.
  set (expected :=
         (tl Financial_Transactions ++ firstn 1 Financial_Transactions)%list).
  assert (Hperm : Permutation Financial_Transactions expected)
    by (unfold expected, Financial_Transactions; simpl;
        apply Permutation_cons_append).
  assert (E : sortedTransactions sort Financial_Transactions "asc" "Amount"
              = expected).
  { unfold sortedTransactions.
    apply (sorted_permutation_unique (fun a b => compareFn "asc" "Amount" a b < 0)).
    - intros a b. apply strict_order_on_asym.
      apply (strict_order_on_Permutation _ Financial_Transactions);
        [|exact Hord].
      now apply sort_permutation.
    - now apply sort_in_order.
    - repeat constructor.
    - rewrite <- Hperm. apply Permutation_sym. now apply sort_permutation. }
  rewrite E. split; reflexivity.
Qed.

(** C10.  Sorting does not modify its input: in any heap in which
    [transactions] is an array, the result is a newly allocated array that
    holds the sorted elements, [transactions] still holds what it held,
    and so does every other array. *)
Theorem sortedTransactions_heap_frame
    (transactions : loc) (order orderBy : string)
    (h : gmap loc (list Transaction.t)) (items : list Transaction.t) :
  h !! transactions = Some items ->
  exists (copy : loc) (h' : gmap loc (list Transaction.t)),
    sortedTransactions_heap sort transactions order orderBy h = Some (copy, h')
    /\ h !! copy = None
    /\ copy <> transactions
    /\ h' !! copy = Some (sortedTransactions sort items order orderBy)
    /\ h' !! transactions = Some items
    /\ forall a : loc, a <> copy -> h' !! a = h !! a.
Proof.
  intros Hitems.
  set (copy := fresh (dom h)).
  assert (Hfresh : h !! copy = None).
  { apply not_elem_of_dom. apply is_fresh. }
  assert (Hne : copy <> transactions) by congruence.
  exists copy, (<[copy := sortedTransactions sort items order orderBy]> h).
  split.
  - unfold sortedTransactions_heap, spread, sort_in_place.
    rewrite Hitems. simpl. fold copy. rewrite lookup_insert_eq. simpl.
    now rewrite insert_insert_eq.
  - repeat split; auto.
    + apply lookup_insert_eq.
    + now rewrite lookup_insert_ne.
    + intros a Ha. now rewrite lookup_insert_ne.
Qed.

End SortedViewFacts.

(** C4 as stated fails when records tie: [compareFn] returns 1 for two
    records with equal values whichever comes first, and a sort that meets
    what is assumed of the engine may then exchange them at every call.
    The insertion sort does so for the sample transactions sorted by
    Status, three of which are "Completed": the sorted sequence is in
    ascending order of Status, and sorting it again yields a different
    sequence. *)
Lemma sortedTransactions_ties_not_idempotent :
  conforming InsertionSort
  /\ map Transaction.Status
       (sortedTransactions InsertionSort Financial_Transactions "asc" "Status")
     = ["Completed"; "Completed"; "Completed"; "Pending"]
  /\ sortedTransactions InsertionSort
       (sortedTransactions InsertionSort Financial_Transactions "asc" "Status")
       "asc" "Status"
     <> sortedTransactions InsertionSort Financial_Transactions "asc" "Status".
Proof.
  split; [exact InsertionSort_conforming|]. split.
  - vm_compute. reflexivity.
  - vm_compute. discriminate.
Qed.

Lemma sortedTransactions_idempotent_witness :
  conforming InsertionSort
  /\ Forall (fun a => well_formed a = true) Financial_Transactions
  /\ no_ties "Date" Financial_Transactions
  /\ sortedTransactions InsertionSort
       (sortedTransactions InsertionSort Financial_Transactions "desc" "Date")
       "desc" "Date"
     = sortedTransactions InsertionSort Financial_Transactions "desc" "Date".
Proof.
  split; [exact InsertionSort_conforming|].
  split; [repeat constructor|]. split; [repeat constructor|].
  apply (sortedTransactions_idempotent InsertionSort InsertionSort_conforming
           Financial_Transactions "desc" "Date"); repeat constructor.
Defined.

Lemma sortedTransactions_asc_rev_desc_witness :
  conforming InsertionSort
  /\ Forall (fun a => well_formed a = true) Financial_Transactions
  /\ no_ties "Amount" Financial_Transactions
  /\ sortedTransactions InsertionSort Financial_Transactions "asc" "Amount"
     = rev (sortedTransactions InsertionSort Financial_Transactions "desc" "Amount").
Proof.
  split; [exact InsertionSort_conforming|].
  split; [repeat constructor|]. split; [repeat constructor|].
  apply (sortedTransactions_asc_rev_desc InsertionSort InsertionSort_conforming
           Financial_Transactions "Amount"); repeat constructor.
Defined.

Lemma sortedTransactions_sample_by_amount_witness :
  conforming InsertionSort
  /\ map Transaction.Amount
       (sortedTransactions InsertionSort Financial_Transactions "asc" "Amount")
     = map Number.of_Z [-15000; -8500; -3200; 125000]
  /\ map Transaction.Title
       (sortedTransactions InsertionSort Financial_Transactions "asc" "Amount")
     = ["Office Operations"; "Marketing Campaign"; "Software Licenses";
        "Q2 Revenue"].
Proof.
  split; [exact InsertionSort_conforming|].
  apply (sortedTransactions_sample_by_amount InsertionSort InsertionSort_conforming).
Defined.

Lemma sortedTransactions_heap_frame_witness :
  ({[ 1%positive := Financial_Transactions ]} : gmap loc (list Transaction.t))
    !! 1%positive = Some Financial_Transactions
  /\ exists (copy : loc) (h' : gmap loc (list Transaction.t)),
       sortedTransactions_heap InsertionSort 1%positive "asc" "Amount"
         {[ 1%positive := Financial_Transactions ]} = Some (copy, h')
       /\ ({[ 1%positive := Financial_Transactions ]} : gmap loc (list Transaction.t))
            !! copy = None
       /\ copy <> 1%positive
       /\ h' !! copy
          = Some (sortedTransactions InsertionSort Financial_Transactions "asc" "Amount")
       /\ h' !! 1%positive = Some Financial_Transactions
       /\ forall a : loc, a <> copy ->
            h' !! a
            = ({[ 1%positive := Financial_Transactions ]} : gmap loc (list Transaction.t)) !! a.
Proof.
  split; [reflexivity|].
  apply (sortedTransactions_heap_frame InsertionSort 1%positive "asc" "Amount"
           {[ 1%positive := Financial_Transactions ]} Financial_Transactions).
  reflexivity.
Defined.

(** ** The mock data provider *)

Section Provider.

Lemma mockData_unrecognized (listTitle : string) :
  ~ recognized listTitle -> mockData !! listTitle = None.
Proof.
  unfold recognized, mockData. intros H.
  rewrite !lookup_insert_ne by (intros <-; tauto).
  apply lookup_empty.
Qed.

(** Away from the names of [Object.prototype], an unrecognized name
    yields an empty sequence. *)
Lemma getMockData_unrecognized (listTitle : string) :
  ~ recognized listTitle -> listTitle ∉ Object_prototype_names ->
  getMockData listTitle = Array [].
Proof.
  intros Hrec Hproto. unfold getMockData, Get.
  rewrite (mockData_unrecognized _ Hrec).
  now rewrite bool_decide_eq_false_2.
Qed.

Lemma getMockData_array (listTitle : string) :
  listTitle ∉ Object_prototype_names ->
  exists items, getMockData listTitle = Array items.
Proof.
  intros Hproto. unfold getMockData, Get.
  destruct (mockData !! listTitle) as [items|]; simpl; [eauto|].
  rewrite bool_decide_eq_false_2 by exact Hproto. simpl. eauto.
Qed.

(** C7.  For each of the three recognized dataset names the fetch
    fulfils, after the delay of 800 milliseconds, with exactly the
    compiled-in sequence of records for that name, in the compiled-in
    order. *)
Theorem getListItems_recognized (siteUrl selectFields : string) :
  getListItems siteUrl "Financial_Transactions" selectFields
  = MkPromise 800
      (Fulfilled (MkResponse (Array (map TransactionItem Financial_Transactions))))
  /\ getListItems siteUrl "Budget_Categories" selectFields
     = MkPromise 800
         (Fulfilled (MkResponse (Array (map BudgetItem Budget_Categories))))
  /\ getListItems siteUrl "Company_Metrics" selectFields
     = MkPromise 800
         (Fulfilled (MkResponse (Array (map MetricItem Company_Metrics)))).
Proof. repeat split; vm_compute; reflexivity. Qed.

(** C8 (the code departs from it).  "constructor" is not a recognized
    dataset name, yet [getMockData] does not return an empty sequence for
    it: [mockData["constructor"]] is the member inherited from
    [Object.prototype], which is truthy, so [|| []] does not apply. *)
Theorem getMockData_inherited_name :
  ~ recognized "constructor"
  /\ getMockData "constructor" = Inherited "constructor"
  /\ getMockData "constructor" <> Array [].
Proof.
  split; [|split].
  - unfold recognized. intros [H | [H | H]]; discriminate.
  - vm_compute. reflexivity.
  - vm_compute. discriminate.
Qed.

(** For every name the promise of the fetch is fulfilled, after 800
    milliseconds, with what [getMockData] returns: it is never rejected. *)
Lemma getListItems_fulfils (siteUrl listTitle selectFields : string) :
  getListItems siteUrl listTitle selectFields
  = MkPromise 800 (Fulfilled (MkResponse (getMockData listTitle))).
Proof. reflexivity. Qed.

(** C9 (the code departs from it).  The fetch raises no error, but it does
    not always terminate with a sequence of records: for "constructor" its
    promise is fulfilled with the member inherited from [Object.prototype],
    through the same [|| []] as in C8, and with no sequence. *)
Theorem getListItems_inherited_name (siteUrl selectFields : string) :
  getListItems siteUrl "constructor" selectFields
  = MkPromise 800 (Fulfilled (MkResponse (Inherited "constructor")))
  /\ ~ (exists (delay : Z) (items : list Item),
          getListItems siteUrl "constructor" selectFields
          = MkPromise delay (Fulfilled (MkResponse (Array items)))).
Proof.
  rewrite getListItems_fulfils. split; [vm_compute; reflexivity|].
  intros (delay & items & E). vm_compute in E. discriminate.
Qed.

End Provider.

(** * Further properties of the code *)

(** ** The mock data provider and the data hook *)

Section ProviderMore.

(** X1.  For every dataset name that is neither one of the three
    recognized names nor a property name of [Object.prototype],
    [getMockData] returns an empty sequence. *)
Theorem getMockData_empty_for_unknown (listTitle : string) :
  ~ recognized listTitle -> listTitle ∉ Object_prototype_names ->
  getMockData listTitle = Array [].
Proof. apply getMockData_unrecognized. Qed.

Lemma getMockData_empty_for_unknown_witness :
  ~ recognized "Unknown_List"
  /\ ("Unknown_List" ∉ Object_prototype_names)
  /\ getMockData "Unknown_List" = Array [].
Proof.
  assert (H1 : ~ recognized "Unknown_List")
    by (intros [H | [H | H]]; discriminate).
  assert (H2 : "Unknown_List" ∉ Object_prototype_names)
    by (apply (bool_decide_unpack _); vm_compute; exact I).
  split; [exact H1|]. split; [exact H2|].
  apply (getMockData_empty_for_unknown "Unknown_List" H1 H2).
Defined.

Lemma getMockData_inherited (listTitle : string) :
  listTitle ∈ Object_prototype_names ->
  getMockData listTitle = Inherited listTitle.
Proof.
  unfold Object_prototype_names. intros H.
  repeat (apply elem_of_cons in H as [-> | H]; [vm_compute; reflexivity|]).
  now apply elem_of_nil in H.
Qed.

(** X2.  [getMockData] returns a sequence of records exactly for the
    names that are not property names of [Object.prototype]; for those
    twelve names it returns the inherited member. *)
Theorem getMockData_sequence_iff (listTitle : string) :
  (exists items, getMockData listTitle = Array items)
  <-> listTitle ∉ Object_prototype_names.
Proof.
  split.
  - intros [items E] Hin. rewrite (getMockData_inherited _ Hin) in E.
    discriminate.
  - apply getMockData_array.
Qed.

(** X3.  For every list name that is not a property name of
    [Object.prototype], whatever the state before: once [fetchData] has run
    the hook is no longer loading, its error is cleared and never set, and
    its data is the sequence [getMockData] returns for the name; while the
    fetch is pending the hook is loading and still shows the data it had. *)
Theorem fetchData_outcome (siteUrl listName : string) (s : Hook.state) :
  listName ∉ Object_prototype_names ->
  Hook.fetchData siteUrl listName s
  = Some (Hook.MkState (getMockData listName) false None)
  /\ Hook.loading (Hook.started s) = true
  /\ Hook.data (Hook.started s) = Hook.data s.
Proof.
  intros Hname. destruct (getMockData_array listName Hname) as [items E].
  unfold Hook.fetchData, Hook.settled. rewrite getListItems_fulfils.
  simpl. rewrite E. repeat split.
Qed.

Lemma fetchData_outcome_witness :
  ("Budget_Categories" ∉ Object_prototype_names)
  /\ Hook.fetchData "https://example.org" "Budget_Categories" Hook.initial
     = Some (Hook.MkState (getMockData "Budget_Categories") false None)
  /\ Hook.loading (Hook.started Hook.initial) = true
  /\ Hook.data (Hook.started Hook.initial) = Hook.data Hook.initial.
Proof.
  assert (H : "Budget_Categories" ∉ Object_prototype_names)
    by (apply (bool_decide_unpack _); vm_compute; exact I).
  split; [exact H|].
  apply (fetchData_outcome "https://example.org" "Budget_Categories"
           Hook.initial H).
Defined.

End ProviderMore.

(** ** The sort state and the rows of the table *)

Section TableMore.
Import TableState.

Lemma handleRequestSort_order (property : string) (s : TableState.t) :
  order (handleRequestSort property s) = "asc"
  \/ order (handleRequestSort property s) = "desc".
Proof.
  unfold handleRequestSort. simpl.
  destruct (String.eqb (orderBy s) property && String.eqb (order s) "asc");
    auto.
Qed.

(** X4.  A click on a header makes its column the sort column.  If the
    column was not the sort column the direction becomes ascending; a
    further click on the same header switches the direction, so that a
    third click gives the state of the first again. *)
Theorem handleRequestSort_toggles (property : string) (s : TableState.t) :
  orderBy (handleRequestSort property s) = property
  /\ (orderBy s <> property -> order (handleRequestSort property s) = "asc")
  /\ order (handleRequestSort property (handleRequestSort property s))
     <> order (handleRequestSort property s)
  /\ handleRequestSort property
       (handleRequestSort property (handleRequestSort property s))
     = handleRequestSort property s.
Proof.
  unfold handleRequestSort. simpl. rewrite String.eqb_refl. simpl.
  split; [reflexivity|]. split.
  - intros Hne. apply String.eqb_neq in Hne. now rewrite Hne.
  - destruct (String.eqb (orderBy s) property && String.eqb (order s) "asc");
      simpl; split; congruence.
Qed.

(** X5.  From the initial state, after any sequence of clicks on the
    five column headers, the sort column is one of the five headers and
    the direction is "asc" or "desc". *)
Theorem after_clicks_invariant (clicks : list string) :
  Forall (fun property => In property headers) clicks ->
  In (orderBy (after_clicks clicks initial)) headers
  /\ (order (after_clicks clicks initial) = "asc"
      \/ order (after_clicks clicks initial) = "desc").
Proof.
  unfold after_clicks.
  assert (Hinit : In (orderBy initial) headers
                  /\ (order initial = "asc" \/ order initial = "desc")).
  { split; [simpl; tauto | now right]. }
  revert Hinit. generalize initial as s.
  induction clicks as [|property clicks IH]; intros s Hs Hclicks; simpl;
    [exact Hs|].
  inversion Hclicks as [|? ? Hp Hrest]; subst.
  apply IH; [|exact Hrest]. split.
  - exact Hp.
  - apply handleRequestSort_order.
Qed.

Lemma after_clicks_invariant_witness :
  Forall (fun property => In property headers) ["Amount"; "Amount"; "Status"]
  /\ In (orderBy (after_clicks ["Amount"; "Amount"; "Status"] initial)) headers
  /\ (order (after_clicks ["Amount"; "Amount"; "Status"] initial) = "asc"
      \/ order (after_clicks ["Amount"; "Amount"; "Status"] initial) = "desc").
Proof.
  assert (H : Forall (fun property => In property headers)
                     ["Amount"; "Amount"; "Status"])
    by (repeat constructor; simpl; tauto).
  split; [exact H|].
  apply (after_clicks_invariant ["Amount"; "Amount"; "Status"] H).
Defined.

Variable sort : ArraySort.
Hypothesis sort_conforms : conforming sort.

Lemma sorted_asc_rev_desc (transactions : list Transaction.t) (orderBy : string) :
  Forall (fun a => well_formed a = true) transactions ->
  no_ties orderBy transactions ->
  sortedTransactions sort transactions "asc" orderBy
  = rev (sortedTransactions sort transactions "desc" orderBy).
Proof.
  intros Hwf Hties.
  pose proof (compareFn_strict_order "asc" orderBy _ Hwf Hties) as Hasc.
  pose proof (compareFn_strict_order "desc" orderBy _ Hwf Hties) as Hdesc.
  unfold sortedTransactions.
  apply (sorted_permutation_unique (fun a b => compareFn "asc" orderBy a b < 0)).
  - intros a b. apply strict_order_on_asym.
    apply (strict_order_on_Permutation _ transactions); [|exact Hasc].
    now apply sort_permutation.
  - now apply sort_in_order.
  - apply (StronglySorted_impl (fun a b => compareFn "desc" orderBy b a < 0)).
    + intros a b _ _. apply compareFn_desc_asc.
    + apply (StronglySorted_rev (fun a b => compareFn "desc" orderBy a b < 0)).
      now apply sort_in_order.
  - rewrite <- Permutation_rev.
    rewrite <- (sort_permutation sort sort_conforms _ (compareFn "asc" orderBy)).
    now apply sort_permutation.
Qed.

(** X6.  When no two transactions tie on a column, a second click on its
    header shows the rows of the first click in reverse. *)
Theorem second_click_reverses_rows
    (transactions : list Transaction.t) (property : string) (s : TableState.t) :
  Forall (fun a => well_formed a = true) transactions ->
  no_ties property transactions ->
  tableRows sort transactions
    (handleRequestSort property (handleRequestSort property s))
  = rev (tableRows sort transactions (handleRequestSort property s)).
Proof.
  intros Hwf Hties. unfold tableRows, handleRequestSort. simpl.
  rewrite String.eqb_refl. simpl.
  destruct (String.eqb (TableState.orderBy s) property
            && String.eqb (TableState.order s) "asc"); simpl.
  - now apply sorted_asc_rev_desc.
  - rewrite (sorted_asc_rev_desc _ _ Hwf Hties). now rewrite rev_involutive.
Qed.

(** X7.  When no two transactions tie on the field, the sorted sequence
    is in order: in direction "asc" every record is below all the records
    after it, in any other direction above them. *)
Theorem sortedTransactions_in_order
    (transactions : list Transaction.t) (order orderBy : string) :
  Forall (fun a => well_formed a = true) transactions ->
  no_ties orderBy transactions ->
  StronglySorted
    (fun a b => if String.eqb order "asc"
                then lessThanBy orderBy a b = true
                else lessThanBy orderBy b a = true)
    (sortedTransactions sort transactions order orderBy).
Proof.
  intros Hwf Hties.
  apply (StronglySorted_impl (fun a b => compareFn order orderBy a b < 0)).
  - intros a b _ _ H. apply compareFn_lt in H.
    now destruct (String.eqb order "asc").
  - apply sort_in_order; [exact sort_conforms|].
    now apply compareFn_strict_order.
Qed.

(** X8.  When no two transactions tie on the field, the sorted sequence
    does not depend on the order in which the transactions arrive: two
    rearrangements of the same records are sorted to the same sequence. *)
Theorem sortedTransactions_of_rearrangement
    (transactions transactions' : list Transaction.t) (order orderBy : string) :
  Forall (fun a => well_formed a = true) transactions ->
  no_ties orderBy transactions ->
  Permutation transactions transactions' ->
  sortedTransactions sort transactions order orderBy
  = sortedTransactions sort transactions' order orderBy.
Proof.
  intros Hwf Hties Hperm.
  pose proof (compareFn_strict_order order orderBy _ Hwf Hties) as Hord.
  pose proof (strict_order_on_Permutation _ _ _ Hperm Hord) as Hord'.
  unfold sortedTransactions.
  apply (sorted_permutation_unique (fun a b => compareFn order orderBy a b < 0)).
  - intros a b. apply strict_order_on_asym.
    apply (strict_order_on_Permutation _ transactions); [|exact Hord].
    now apply sort_permutation.
  - now apply sort_in_order.
  - now apply sort_in_order.
  - rewrite <- (sort_permutation sort sort_conforms _ _ transactions).
    rewrite <- (sort_permutation sort sort_conforms _ _ transactions').
    exact Hperm.
Qed.

End TableMore.

Lemma second_click_reverses_rows_witness :
  conforming InsertionSort
  /\ Forall (fun a => well_formed a = true) Financial_Transactions
  /\ no_ties "Amount" Financial_Transactions
  /\ tableRows InsertionSort Financial_Transactions
       (handleRequestSort "Amount"
          (handleRequestSort "Amount" TableState.initial))
     = rev (tableRows InsertionSort Financial_Transactions
              (handleRequestSort "Amount" TableState.initial)).
Proof.
  split; [exact InsertionSort_conforming|].
  split; [repeat constructor|]. split; [repeat constructor|].
  apply (second_click_reverses_rows InsertionSort InsertionSort_conforming
           Financial_Transactions "Amount" TableState.initial);
    repeat constructor.
Defined.

Lemma sortedTransactions_in_order_witness :
  conforming InsertionSort
  /\ Forall (fun a => well_formed a = true) Financial_Transactions
  /\ no_ties "Date" Financial_Transactions
  /\ StronglySorted
       (fun a b => if String.eqb "desc" "asc"
                   then lessThanBy "Date" a b = true
                   else lessThanBy "Date" b a = true)
       (sortedTransactions InsertionSort Financial_Transactions "desc" "Date").
Proof.
  split; [exact InsertionSort_conforming|].
  split; [repeat constructor|]. split; [repeat constructor|].
  apply (sortedTransactions_in_order InsertionSort InsertionSort_conforming
           Financial_Transactions "desc" "Date"); repeat constructor.
Defined.

Lemma sortedTransactions_of_rearrangement_witness :
  conforming InsertionSort
  /\ Forall (fun a => well_formed a = true) Financial_Transactions
  /\ no_ties "Title" Financial_Transactions
  /\ Permutation Financial_Transactions (rev Financial_Transactions)
  /\ sortedTransactions InsertionSort Financial_Transactions "asc" "Title"
     = sortedTransactions InsertionSort (rev Financial_Transactions) "asc" "Title".
Proof.
  split; [exact InsertionSort_conforming|].
  split; [repeat constructor|]. split; [repeat constructor|].
  split; [apply Permutation_rev|].
  apply (sortedTransactions_of_rearrangement InsertionSort
           InsertionSort_conforming Financial_Transactions
           (rev Financial_Transactions) "asc" "Title");
    [repeat constructor | repeat constructor | apply Permutation_rev].
Defined.

(** ** Unchanged metrics *)

Section ChangeMore.
Import Number.

Lemma sub_self (s : bool) (m : positive) (e : Z) :
  sub (S754_finite s m e) (S754_finite s m e) = S754_zero false.
Proof.
  unfold sub, SFsub. now rewrite Z.sub_diag.
Qed.

(** X10.  For a metric whose value has not changed, finite and not
    zero, [calculateChange] returns the numeral 0.0. *)
Theorem calculateChange_unchanged (x : number) :
  is_finite x = true -> strict_eq x (of_Z 0) = false ->
  calculateChange x x = Normal "0.0".
Proof.
  destruct x as [s | s | | s m e]; try discriminate.
  intros _ _. unfold calculateChange, percentChange. rewrite sub_self.
  destruct s; vm_compute; reflexivity.
Qed.

Lemma calculateChange_unchanged_witness :
  is_finite (of_Z 125000) = true
  /\ strict_eq (of_Z 125000) (of_Z 0) = false
  /\ calculateChange (of_Z 125000) (of_Z 125000) = Normal "0.0".
Proof.
  split; [reflexivity|]. split; [reflexivity|].
  apply (calculateChange_unchanged (of_Z 125000)); reflexivity.
Defined.

End ChangeMore.

(** ** The budget overview *)

Section BudgetMore.
Import Number BudgetOverview.

Ltac compare_cases :=
  repeat (simpl in *;
          match goal with
          | |- context [(?a ?= ?b)%Z] => destruct (Z.compare_spec a b)
          | |- context [Pos.compare_cont Eq ?a ?b] =>
              change (Pos.compare_cont Eq a b) with (a ?= b)%positive;
              destruct (Pos.compare_spec a b)
          end);
  simpl in *; try congruence; try lia; auto.

Lemma isOverBudget_isWarning (budget : BudgetCategory.t) :
  isOverBudget budget = true -> isWarning budget = true.
Proof.
  unfold isOverBudget, isWarning.
  apply number_lt_trans. vm_compute. reflexivity.
Qed.

(** X11.  The colour of a budget's bar: a budget over 100 percent is also
    over 75 percent; the bar is "error" exactly when the budget is over 100
    percent, "warning" exactly when it is over 75 but not over 100, and
    "success" exactly when it is not over 75, which includes a percentage
    that is NaN. *)
Theorem progressColor_cases (budget : BudgetCategory.t) :
  (isOverBudget budget = true -> isWarning budget = true)
  /\ (progressColor budget = "error" <-> isOverBudget budget = true)
  /\ (progressColor budget = "warning"
      <-> isWarning budget = true /\ isOverBudget budget = false)
  /\ (progressColor budget = "success" <-> isWarning budget = false).
Proof.
  pose proof (isOverBudget_isWarning budget) as Himpl.
  unfold progressColor.
  destruct (isOverBudget budget), (isWarning budget);
    repeat split; intros; try reflexivity; try discriminate;
    try (specialize (Himpl eq_refl); discriminate);
    match goal with
    | H : _ /\ _ |- _ => destruct H; discriminate
    end.
Qed.

Lemma Math_min_at_most (y z : number) :
  z <> S754_nan ->
  Math_min y z = S754_nan \/ SFleb (Math_min y z) z = true.
Proof.
  intros Hz. unfold Math_min, lt, SFltb, SFleb.
  destruct y as [[] | [] | | [] m e], z as [[] | [] | | [] m' e'];
    try congruence; auto; right; compare_cases.
Qed.

(** X12.  The value handed to the progress bar never exceeds 1: it is
    at most 1, or NaN. *)
Theorem progressValue_at_most_one (budget : BudgetCategory.t) :
  progressValue budget = S754_nan
  \/ SFleb (progressValue budget) (of_Z 1) = true.
Proof.
  unfold progressValue. apply Math_min_at_most.
  vm_compute. discriminate.
Qed.

(** X13.  A budget with nothing allocated: the text in front of
    "% used" is "NaN", "Infinity" or "-Infinity".  With a positive amount
    spent it is "Infinity", the bar is full and "error"; with nothing spent
    it is "NaN", the value of the bar is NaN and its colour "success". *)
Theorem nothing_allocated (id : number) (title : string) :
  (forall (spent : number) (s : bool),
     let budget := BudgetCategory.Build id title (S754_zero s) spent in
     usedLabel budget = Normal "NaN"
     \/ usedLabel budget = Normal "Infinity"
     \/ usedLabel budget = Normal "-Infinity")
  /\ (forall (m : positive) (e : Z),
        let budget :=
          BudgetCategory.Build id title (S754_zero false) (S754_finite false m e) in
        usedLabel budget = Normal "Infinity"
        /\ progressColor budget = "error"
        /\ progressValue budget = of_Z 1)
  /\ (forall s s' : bool,
        let budget :=
          BudgetCategory.Build id title (S754_zero s) (S754_zero s') in
        usedLabel budget = Normal "NaN"
        /\ progressColor budget = "success"
        /\ progressValue budget = S754_nan).
Proof.
  split; [|split].
  - intros spent s budget. unfold usedLabel, percentage, budget. simpl.
    destruct (div_by_zero spent s) as [-> | [[] ->]]; auto.
  - intros m e budget. unfold budget. vm_compute. repeat split.
  - intros s s' budget. unfold budget. destruct s, s'; vm_compute; repeat split.
Qed.

(** X14.  Whenever a budget's percentage is finite and below 10^21 in
    magnitude, the text in front of "% used" is the numeral of the
    percentage rounded to one decimal place. *)
Theorem usedLabel_rounds (budget : BudgetCategory.t) :
  is_finite (percentage budget) = true ->
  (Qabs (value (percentage budget)) < inject_Z (10 ^ 21))%Q ->
  rounded_to_one_decimal (percentage budget) (usedLabel budget).
Proof. intros Hfin Hsmall. now apply toFixed_rounds. Qed.

Lemma usedLabel_rounds_witness :
  let budget :=
    BudgetCategory.Build (of_Z 1) "Marketing" (of_Z 15000) (of_Z 12500) in
  is_finite (percentage budget) = true
  /\ (Qabs (value (percentage budget)) < inject_Z (10 ^ 21))%Q
  /\ rounded_to_one_decimal (percentage budget) (usedLabel budget).
Proof.
  split; [vm_compute; reflexivity|]. split; [vm_compute; reflexivity|].
  apply (usedLabel_rounds
           (BudgetCategory.Build (of_Z 1) "Marketing" (of_Z 15000) (of_Z 12500)));
    vm_compute; reflexivity.
Defined.

End BudgetMore.

(** ** The comparison function on ties, and the sign of a change *)

Section ComparatorMore.

Lemma number_strict_eq_not_lt (x y : number) :
  Number.strict_eq x y = true -> Number.lt x y = false.
Proof.
  unfold Number.strict_eq, Number.lt, SFeqb, SFltb.
  now destruct (SFcompare x y) as [[]|].
Qed.

Lemma string_eqb_not_ltb (s t : string) :
  String.eqb s t = true -> String.ltb s t = false.
Proof.
  intros E. apply String.eqb_eq in E. subst. unfold String.ltb.
  now rewrite string_compare_refl.
Qed.

Lemma strictEqualsBy_not_lessThanBy (orderBy : string) (a b : Transaction.t) :
  strictEqualsBy orderBy a b = true -> lessThanBy orderBy a b = false.
Proof.
  unfold lessThanBy, strictEqualsBy;
    repeat match goal with
      | |- context [String.eqb orderBy ?k] => destruct (String.eqb orderBy k)
      end;
    auto using number_strict_eq_not_lt, string_eqb_not_ltb.
Qed.

(** X15.  The comparison function never reports two records as equal: it
    returns -1 or 1, and for two records with equal values of the field it
    returns 1 whichever of them comes first. *)
Theorem compareFn_never_zero (order orderBy : string) (a b : Transaction.t) :
  (compareFn order orderBy a b = -1 \/ compareFn order orderBy a b = 1)
  /\ (strictEqualsBy orderBy a b = true ->
      compareFn order orderBy a b = 1 /\ compareFn order orderBy b a = 1).
Proof.
  split.
  - unfold compareFn.
    destruct (String.eqb order "asc"), (lessThanBy orderBy a b),
             (lessThanBy orderBy b a); auto.
  - intros Hab. pose proof Hab as Hba. rewrite strictEqualsBy_sym in Hba.
    apply strictEqualsBy_not_lessThanBy in Hab, Hba.
    unfold compareFn. rewrite Hab, Hba.
    now destruct (String.eqb order "asc").
Qed.

End ComparatorMore.

Section SignMore.
Import Number.

Lemma prefix_minus (c : ascii) (s : string) :
  String.prefix "-" (String c s) = true <-> c = "-"%char.
Proof.
  cbn [String.prefix]. destruct (ascii_dec "-" c) as [<-|Hne].
  - split; [reflexivity|]. intros _. now destruct s.
  - split; [discriminate | congruence].
Qed.

(** X16.  Whenever the binary64 value [x] of
    [(current - previous) / previous * 100] is finite and below 10^21 in
    magnitude, the text [calculateChange] returns starts with a minus sign
    exactly when [x] is negative, also when it rounds to 0.0. *)
Theorem calculateChange_minus_sign (current previous : number) :
  is_finite (percentChange current previous) = true ->
  (Qabs (value (percentChange current previous)) < inject_Z (10 ^ 21))%Q ->
  exists t : string,
    calculateChange current previous = Normal t
    /\ (String.prefix "-" t = true
        <-> (value (percentChange current previous) < 0)%Q).
Proof.
  intros Hfin Hsmall. unfold calculateChange.
  rewrite (toFixed_fixed_notation _ Hfin Hsmall).
  set (r := value (percentChange current previous)) in *.
  set (n := nearest_scaled (Qabs r) 1).
  assert (Hn : 0 <= n) by (apply nearest_scaled_nonneg, Qabs_nonneg).
  destruct (fixed_digits_shape n Hn) as (c & a & d & u & E & Hu & _).
  assert (Hc : c <> "-"%char).
  { eapply first_digit_not_minus. simpl. exact Hu. }
  eexists. split; [reflexivity|].
  rewrite E. destruct (Qle_bool 0 r) eqn:Hsign.
  - apply Qle_bool_iff in Hsign.
    change ("" +:+ (String c a +:+ String "." (String d "")))
      with (String c (a +:+ String "." (String d ""))).
    rewrite prefix_minus. split; [contradiction|].
    intros Hneg. exfalso. apply (Qlt_not_le _ _ Hneg Hsign).
  - change ("-" +:+ (String c a +:+ String "." (String d "")))
      with (String "-" (String c a +:+ String "." (String d ""))).
    rewrite prefix_minus. split; [|reflexivity]. intros _.
    destruct (Qlt_le_dec r 0) as [Hneg|Hpos]; [exact Hneg|].
    apply Qle_bool_iff in Hpos. congruence.
Qed.

Lemma calculateChange_minus_sign_witness :
  is_finite (percentChange (of_Z 52000) (of_Z 58000)) = true
  /\ (Qabs (value (percentChange (of_Z 52000) (of_Z 58000)))
      < inject_Z (10 ^ 21))%Q
  /\ exists t : string,
       calculateChange (of_Z 52000) (of_Z 58000) = Normal t
       /\ (String.prefix "-" t = true
           <-> (value (percentChange (of_Z 52000) (of_Z 58000)) < 0)%Q).
Proof.
  split; [vm_compute; reflexivity|]. split; [vm_compute; reflexivity|].
  apply (calculateChange_minus_sign (of_Z 52000) (of_Z 58000));
    vm_compute; reflexivity.
Defined.

End SignMore.
